(** * testdroid-client: the token manager, the request primitives and the
      proxy polling loop of [lib/testdroid.js], embedded in Rocq.

    The client is a JavaScript class whose methods are [async] functions that
    are awaited one after the other.  The embedding is a state-and-exception
    monad over an explicit world:

    - the client object ([this]) with its mutable token fields;
    - a store of the option and header objects the methods pass around and
      mutate in place ([opts.headers = ...], [headers.Authorization = ...]);
    - the trace of what the client did to the outside world (HTTP exchanges
      and sleeps), oldest event first;
    - the number of [Date.now()] readings taken so far.

    The outside world is an environment of oracles: the clock, the OAuth
    endpoint, the API endpoint (both see the whole trace so far) and the
    three library functions the module imports ([url-join], [util.format],
    [encodeURIComponent]).  Numbers are integers ([Z]); response bodies are
    typed after the shapes the methods read.  Calls to [debug] only trace;
    what is kept of them is the evaluation of their arguments where that
    evaluation can throw. *)

From Stdlib Require Import ZArith Ascii String List Bool Lia.
From stdpp Require Import base option list gmap strings pretty.

Local Open Scope string_scope.
Local Open Scope Z_scope.

(** ** JavaScript values and objects *)

Inductive JVal : Type :=
| VUndef
| VNum (n : Z)
| VStr (s : string).

#[global] Instance JVal_eq_dec : EqDecision JVal.
Proof. solve_decision. Defined.

(** A flat object literal such as a payload or a device record. *)
Abbreviation Obj := (gmap string JVal).
(** A header object: header name to header value. *)
Abbreviation Headers := (gmap string string).

Definition loc := nat.

(** The [opts] argument of the request methods: [payload] and [headers] are
    both optional keys; [headers] refers to a header object in the store. *)
Record Opts : Type := mkOpts {
  o_payload : option Obj;
  o_headers : option loc
}.

Inductive Method : Type := GET | POST | DELETE.

(** What superagent is given for one request: [request(METHOD, url)],
    [.set(headers)], then [.query(payload)] or [.send(payload)]. *)
Record Request : Type := mkRequest {
  rq_method : Method;
  rq_url : string;
  rq_headers : Headers;
  rq_query : option Obj;
  rq_send : option Obj
}.

(** The body of an API response, by the shapes the methods read. *)
Inductive Body : Type :=
| BodyNone                      (* null or undefined: falsy *)
| BodyList (items : list Obj)   (* a JSON array of records *)
| BodyPage (data : list Obj)    (* an object whose [data] is an array *)
| BodyObject (o : Obj).         (* a record: no [data] array, no [length] *)

(** An API response: [res.ok], [res.error] (an Error whose message is
    [res_error_message]) and [res.body]. *)
Record Response : Type := mkResponse {
  ok : bool;
  res_error_message : string;
  body : Body
}.

(** A response of the OAuth endpoint: [res.ok] and the fields of [res.body]
    that [getToken] reads. *)
Record TokenResponse : Type := mkTokenResponse {
  t_ok : bool;
  error_description : string;
  access_token : string;
  refresh_token : string;
  expires_in : Z
}.

Inductive Event : Type :=
| EvToken (rq : Request) (rs : TokenResponse)
| EvApi (rq : Request) (rs : Response)
| EvSleep (ms : Z).

(** A thrown value: [new Error(message)], or the TypeError of reading a
    property of [null]/[undefined]. *)
Inductive Exn : Type :=
| Error (message : string)
| TypeError (property : string).

(** ** The client object and the world *)

Record Client : Type := mkClient {
  version : string;
  baseUrl : string;
  apiUrl : string;
  username : string;
  password : string;
  userAgent : string;
  token : option string;          (* undefined until the first grant *)
  refreshToken : option string;
  tokenExpiration : option Z      (* time value of the Date; None: undefined
                                     or an invalid Date, which compare false *)
}.

Record State : Type := mkState {
  client : Client;
  ticks : nat;                    (* Date.now() readings taken so far *)
  log : list Event;
  hdrs : gmap loc Headers;
  optss : gmap loc Opts
}.

Record Env : Type := mkEnv {
  clock : nat -> Z;
  auth_server : list Event -> Request -> TokenResponse;
  api_server : list Event -> Request -> Response;
  urljoin : string -> string -> string;
  util_format : string -> list string -> string;
  encodeURIComponent : string -> string
}.

(** [constructor(url, username, password)]; [version] comes from
    package.json. *)
Definition constructor (ver url user pass : string) : Client :=
  {| version := ver;
     baseUrl := url;
     apiUrl := url +:+ "api/v2/";
     username := user;
     password := pass;
     userAgent := "testdroid-client/" +:+ ver;
     token := None;
     refreshToken := None;
     tokenExpiration := None |}.

Definition initial (c : Client) : State :=
  {| client := c; ticks := 0%nat; log := []; hdrs := ∅; optss := ∅ |}.

(** ** The monad *)

Inductive Outcome (A : Type) : Type :=
| Ret (a : A)
| Throw (e : Exn).
Arguments Ret {A} a.
Arguments Throw {A} e.

Definition M (A : Type) : Type := Env -> State -> Outcome A * State.

Definition ret {A} (a : A) : M A := fun _ s => (Ret a, s).
Definition throw {A} (x : Exn) : M A := fun _ s => (Throw x, s).
Definition bind {A B} (m : M A) (k : A -> M B) : M B :=
  fun e s => match m e s with
             | (Ret a, s') => k a e s'
             | (Throw x, s') => (Throw x, s')
             end.

Declare Scope js_scope.
Delimit Scope js_scope with js.
Notation "'let*' x ':=' m 'in' k" := (bind m (fun x => k))
  (at level 10, x name, m at level 100, k at level 200) : js_scope.
Notation "m '>>' k" := (bind m (fun _ => k))
  (at level 90, right associativity) : js_scope.
Local Open Scope js_scope.

Definition this : M Client := fun _ s => (Ret (client s), s).
Definition env {A} (f : Env -> A) : M A := fun e s => (Ret (f e), s).

Definition set_client (c : Client) : M unit := fun _ s =>
  (Ret tt, {| client := c; ticks := ticks s; log := log s;
              hdrs := hdrs s; optss := optss s |}).

(** The state after [k] more readings of the clock. *)
Definition advance (k : nat) (s : State) : State :=
  {| client := client s; ticks := (k + ticks s)%nat; log := log s;
     hdrs := hdrs s; optss := optss s |}.

(** [Date.now()] *)
Definition Date_now : M Z := fun e s => (Ret (clock e (ticks s)), advance 1 s).

Definition emit (ev : Event) : M unit := fun _ s =>
  (Ret tt, {| client := client s; ticks := ticks s; log := log s ++ [ev];
              hdrs := hdrs s; optss := optss s |}).

(** [sleep(duration)] *)
Definition sleep (duration : Z) : M unit := emit (EvSleep duration).

(** One exchange with the OAuth endpoint, and one with the API endpoint. *)
Definition token_exchange (rq : Request) : M TokenResponse := fun e s =>
  let rs := auth_server e (log s) rq in
  (Ret rs, {| client := client s; ticks := ticks s;
              log := log s ++ [EvToken rq rs];
              hdrs := hdrs s; optss := optss s |}).

Definition api_exchange (rq : Request) : M Response := fun e s =>
  let rs := api_server e (log s) rq in
  (Ret rs, {| client := client s; ticks := ticks s;
              log := log s ++ [EvApi rq rs];
              hdrs := hdrs s; optss := optss s |}).

(** *** The object store *)

Definition new_headers (h : Headers) : M loc := fun _ s =>
  let l := fresh (dom (hdrs s)) in
  (Ret l, {| client := client s; ticks := ticks s; log := log s;
             hdrs := <[l := h]> (hdrs s); optss := optss s |}).

Definition new_opts (o : Opts) : M loc := fun _ s =>
  let l := fresh (dom (optss s)) in
  (Ret l, {| client := client s; ticks := ticks s; log := log s;
             hdrs := hdrs s; optss := <[l := o]> (optss s) |}).

Definition read_headers (l : loc) : M Headers := fun _ s =>
  (Ret (default ∅ (hdrs s !! l)), s).

Definition read_opts (l : loc) : M Opts := fun _ s =>
  (Ret (default (mkOpts None None) (optss s !! l)), s).

(** [headers[name] = value] *)
Definition set_header (l : loc) (name value : string) : M unit := fun _ s =>
  (Ret tt, {| client := client s; ticks := ticks s; log := log s;
              hdrs := <[l := <[name := value]> (default ∅ (hdrs s !! l))]> (hdrs s);
              optss := optss s |}).

(** [opts.headers = h] *)
Definition set_opts_headers (l h : loc) : M unit := fun _ s =>
  (Ret tt, {| client := client s; ticks := ticks s; log := log s;
              hdrs := hdrs s;
              optss := <[l := mkOpts (o_payload (default (mkOpts None None) (optss s !! l)))
                                     (Some h)]> (optss s) |}).

(** The default parameter [opts={}]: the caller's object, or a new empty
    one. *)
Definition default_opts (opts : option loc) : M loc :=
  match opts with
  | Some l => ret l
  | None => new_opts (mkOpts None None)
  end.

(** ** Token manager *)

(** JavaScript truthiness of [this.token]. *)
Definition truthy (t : option string) : bool :=
  match t with
  | Some s => negb (String.eqb s "")
  | None => false
  end.

(** [x > d] and [d > x] for a number [x] and a Date or undefined [d]:
    false when [d] has no time value. *)
Definition num_gt_date (x : Z) (d : option Z) : bool :=
  match d with Some t => t <? x | None => false end.
Definition date_gt_num (d : option Z) (x : Z) : bool :=
  match d with Some t => x <? t | None => false end.

(** [new Date(v)]: the time value is clipped to the range of Date. *)
Definition new_Date (v : Z) : option Z :=
  if Z.abs v <=? 8640000000000000 then Some v else None.

Definition js_string (o : option string) : JVal :=
  match o with Some s => VStr s | None => VUndef end.

Definition password_grant (c : Client) : Obj :=
  {[ "client_id" := VStr "testdroid-cloud-api";
     "grant_type" := VStr "password";
     "username" := VStr (username c);
     "password" := VStr (password c) ]}.

Definition refresh_grant (c : Client) : Obj :=
  {[ "client_id" := VStr "testdroid-cloud-api";
     "grant_type" := VStr "refresh_token";
     "refresh_token" := js_string (refreshToken c) ]}.

Definition token_headers (c : Client) : Headers :=
  {[ "User-Agent" := userAgent c;
     "Content-Type" := "application/x-www-form-urlencoded";
     "Accept" := "application/json" ]}.

(** The first half of [getToken]: which payload to send, or the cached
    token ([inr]) when no request is needed. *)
Definition choose_grant : M (Obj + string) :=
  let* c := this in
  match token c with
  | Some tok =>
      if negb (truthy (token c)) then ret (inl (password_grant c))
      else
        let* now := Date_now in
        if num_gt_date now (tokenExpiration c) then ret (inl (password_grant c))
        else
          let* now' := Date_now in
          if date_gt_num (tokenExpiration c) (now' + 60000) then ret (inr tok)
          else ret (inl (refresh_grant c))
  | None => ret (inl (password_grant c))
  end.

(** The second half: the request, the failure, the update of the cache. *)
Definition request_token (payload : Obj) : M string :=
  let* c := this in
  let* authUrl := env (fun e => urljoin e (baseUrl c) "oauth/token") in
  let* res := token_exchange
                (mkRequest POST authUrl (token_headers c) None (Some payload)) in
  if negb (t_ok res) then
    throw (Error ("Could not retrieve token. Error Reponse: "
                  +:+ error_description res))
  else
    let* now := Date_now in
    set_client {| version := version c; baseUrl := baseUrl c;
                  apiUrl := apiUrl c; username := username c;
                  password := password c; userAgent := userAgent c;
                  token := Some (access_token res);
                  refreshToken := Some (refresh_token res);
                  tokenExpiration := new_Date (now + expires_in res * 1000) |} >>
    ret (access_token res).

Definition getToken : M string :=
  let* choice := choose_grant in
  match choice with
  | inr tok => ret tok
  | inl payload => request_token payload
  end.

(** ** Generic request primitive *)

(** [buildHeaders(headers={})]: the header object it is given is the one it
    fills in and returns. *)
Definition buildHeaders (headers : option loc) : M loc :=
  let* h := match headers with
            | Some l => ret l
            | None => new_headers ∅
            end in
  let* tok := getToken in
  set_header h "Authorization" ("Bearer " +:+ tok) >>
  let* cur := read_headers h in
  (if negb (bool_decide (is_Some (cur !! "Accept")))
   then set_header h "Accept" "application/json"
   else ret tt) >>
  ret h.

(** [__request(method, path, opts={})] *)
Definition __request (method : Method) (path : string) (opts : option loc)
  : M Response :=
  let* o := default_opts opts in
  let* c := this in
  let* endpoint := env (fun e => urljoin e (apiUrl c) path) in
  let* ob := read_opts o in
  let payload := match o_payload ob with
                 | Some p => p
                 | None => ∅
                 end in
  let* h := buildHeaders (o_headers ob) in
  let* headers := read_headers h in
  api_exchange
    (match method with
     | GET => mkRequest method endpoint headers (Some payload) None
     | _ => mkRequest method endpoint headers None (Some payload)
     end).

(** ** Verb wrappers *)

(** [String(res.error)], the message of [new Error(res.error)]: the
    [toString] of an Error object. *)
Definition error_to_string (res : Response) : string :=
  if String.eqb (res_error_message res) "" then "Error"
  else "Error: " +:+ res_error_message res.

Definition del (path : string) : M Response :=
  let* res := __request DELETE path None in
  if negb (ok res) then throw (Error (error_to_string res))
  else ret res.

Definition get (path : string) (opts : option loc) : M Response :=
  let* o := default_opts opts in
  let* res := __request GET path (Some o) in
  if negb (ok res) then throw (Error (error_to_string res))
  else ret res.

Definition post (path : string) (opts : option loc) : M Response :=
  let* o := default_opts opts in
  let* h := new_headers {[ "Content-Type" := "application/x-www-form-urlencoded" ]} in
  set_opts_headers o h >>
  let* res := __request POST path (Some o) in
  ret res.

(** ** Resource operations *)

(** [res.body.data]: a TypeError on a missing body; [None] stands for a value
    that is not an array. *)
Definition body_data (b : Body) : M (option (list Obj)) :=
  match b with
  | BodyNone => throw (TypeError "data")
  | BodyPage d => ret (Some d)
  | BodyList _ | BodyObject _ => ret None
  end.

(** [getDevices(limit=0)] *)
Definition getDevices (limit : Z) : M (option (list Obj)) :=
  let* opts := new_opts (mkOpts (Some {[ "limit" := VNum limit ]}) None) in
  let* res := get "devices" (Some opts) in
  body_data (body res).

(** [device.displayName === deviceName] *)
Definition displayName_is (deviceName : string) (device : Obj) : bool :=
  bool_decide (device !! "displayName" = Some (VStr deviceName)).

Definition getDevicesByName (deviceName : string) : M (list Obj) :=
  let* devices := getDevices 0 in
  match devices with
  | Some ds => ret (List.filter (displayName_is deviceName) ds)
  | None => throw (TypeError "filter")
  end.

(** The truthiness of [res.body && res.body.length]. *)
Definition body_has_length (b : Body) : bool :=
  match b with
  | BodyList (_ :: _) => true
  | _ => false
  end.

(** The truthiness of [res.body.length] alone, which throws on a missing
    body. *)
Definition body_length_truthy (b : Body) : M bool :=
  match b with
  | BodyNone => throw (TypeError "length")
  | BodyList (_ :: _) => ret true
  | _ => ret false
  end.

(** [res.body[0]] *)
Definition body_first (b : Body) : M (option Obj) :=
  match b with
  | BodyNone => throw (TypeError "0")
  | BodyList l => ret (head l)
  | _ => ret None
  end.

Definition dq : string := String (Ascii.ascii_of_nat 34) EmptyString.

Definition queryFormat : string :=
  "{" +:+ dq +:+ "type" +:+ dq +:+ ":" +:+ dq +:+ "%s" +:+ dq +:+ ", "
      +:+ dq +:+ "sessionId" +:+ dq +:+ ": %d}".

Definition maxRetries : nat := 30.

Definition proxy_path (e : Env) (type sessionId : string) : string :=
  util_format e "proxy-plugin/proxies?where=%s"
    [encodeURIComponent e (util_format e queryFormat [type; sessionId])].

(** The [for] loop of [getProxy] with [n] iterations left to run; [res] is
    the variable the loop assigns, [None] before the first assignment. *)
Fixpoint poll (type sessionId : string) (n : nat) (res : option Response)
  : M (option Response) :=
  match n with
  | O => ret res
  | S n' =>
      let* path := env (fun e => proxy_path e type sessionId) in
      let* r := get path None in
      if ok r && body_has_length (body r) then ret (Some r)
      else sleep 5000 >> poll type sessionId n' (Some r)
  end.

Definition proxy_timeout (type sessionId : string) : Exn :=
  Error ("Could not get " +:+ type +:+ " proxy session for " +:+ sessionId).

Definition getProxy (type sessionId : string) : M (option Obj) :=
  let* last := poll type sessionId maxRetries None in
  match last with
  | None => throw (TypeError "ok")
  | Some res =>
      let* failed := (if negb (ok res) then ret true
                      else let* len := body_length_truthy (body res) in
                           ret (negb len)) in
      if (failed : bool) then throw (proxy_timeout type sessionId)
      else body_first (body res)
  end.

(** [startDeviceSession(deviceId)] *)
Definition startDeviceSession (deviceId : string) : M Body :=
  let* opts := new_opts (mkOpts (Some {[ "deviceModelId" := VStr deviceId ]}) None) in
  let* res := post "me/device-sessions" (Some opts) in
  if negb (ok res) then
    throw (Error ("Could not create session for " +:+ deviceId +:+ ". "
                  +:+ res_error_message res))
  else
    match body res with
    | BodyNone => throw (TypeError "id")    (* the trace line reads res.body.id *)
    | b => ret b
    end.

(** [stopDeviceSession(sessionId)] *)
Definition stopDeviceSession (sessionId : string) : M Response :=
  let path := "me/device-sessions/" +:+ sessionId +:+ "/release" in
  let* res := post path None in
  if negb (ok res) then
    throw (Error ("Could not stop the session properly for " +:+ sessionId
                  +:+ ".  " +:+ res_error_message res))
  else ret res.

(** *** Labels, label groups and projects *)

(** A property read off a record: [undefined] when the key is missing. *)
Definition prop (o : Obj) (key : string) : JVal :=
  default VUndef (o !! key).

(** A value inside a template string.  Integers print in decimal, as
    JavaScript prints them below 1e21. *)
Definition template (v : JVal) : string :=
  match v with
  | VUndef => "undefined"
  | VNum n => pretty n
  | VStr s => s
  end.

(** [getDevicesWithLabel(label)]; [None] is a falsy [label], and the result
    [None] is [undefined]. *)
Definition getDevicesWithLabel (label : option Obj) : M (option (list Obj)) :=
  match label with
  | None => ret None
  | Some lbl =>
      let* opts := new_opts (mkOpts (Some {[ "label_id[]" := prop lbl "id";
                                             "limit" := VNum 0 ]}) None) in
      let* res := get "devices" (Some opts) in
      if negb (ok res) then
        throw (Error ("Request for devices with label "
                      +:+ template (prop lbl "displayName")
                      +:+ " could not be completed. " +:+ res_error_message res))
      else body_data (body res)
  end.

(** [res.body.data.find(l => l.displayName === name)] *)
Definition find_displayName (name : string) (b : Body) : M (option Obj) :=
  let* data := body_data b in
  match data with
  | Some ls => ret (List.find (displayName_is name) ls)
  | None => throw (TypeError "find")
  end.

(** [getLabelGroup(labelName)] *)
Definition getLabelGroup (labelName : option string) : M (option Obj) :=
  match labelName with
  | Some name =>
      if negb (truthy labelName) then ret None
      else
        let* opts := new_opts (mkOpts (Some {[ "search" := VStr name ]}) None) in
        let* res := get "label-groups" (Some opts) in
        if negb (ok res) then
          throw (Error ("Could not complete request to find label group. "
                        +:+ res_error_message res))
        else find_displayName name (body res)
  | None => ret None
  end.

(** [getLabelInGroup(labelName, labelGroup)] *)
Definition getLabelInGroup (labelName : option string) (labelGroup : option Obj)
  : M (option Obj) :=
  match labelName, labelGroup with
  | Some name, Some group =>
      if negb (truthy labelName) then ret None
      else
        let* opts := new_opts (mkOpts (Some {[ "search" := VStr name ]}) None) in
        let* res := get ("label-groups/" +:+ template (prop group "id") +:+ "/labels")
                        (Some opts) in
        if negb (ok res) then
          throw (Error ("Could not retrieve label. Error: "
                        +:+ res_error_message res))
        else find_displayName name (body res)
  | _, _ => ret None
  end.

(** The object [new Project(this, record)].  The class is defined in
    lib/project.js; what this module does is construct it, around the one
    client of the world. *)
Inductive Project : Type :=
| NewProject (record : Obj).

(** [typeof(limit) === 'number' ? limit : 0] *)
Definition limit_or_zero (limit : JVal) : Z :=
  match limit with
  | VNum n => n
  | _ => 0
  end.

(** [getProjects(limit)] *)
Definition getProjects (limit : JVal) : M (list Project) :=
  let* opts := new_opts (mkOpts (Some {[ "limit" := VNum (limit_or_zero limit) ]})
                                None) in
  let* res := get "me/projects" (Some opts) in
  if negb (ok res) then throw (Error "Could not retrieve projects.")
  else
    let* data := body_data (body res) in
    match data with
    | None => throw (TypeError "length")
    | Some [] => ret []
    | Some ps => ret (map NewProject ps)
    end.

(** [p.name === projectName] *)
Definition name_is (projectName : string) (p : Obj) : bool :=
  bool_decide (p !! "name" = Some (VStr projectName)).

(** [getProject(projectName)] *)
Definition getProject (projectName : option string) : M (option Project) :=
  match projectName with
  | Some name =>
      if negb (truthy projectName) then ret None
      else
        let* opts := new_opts (mkOpts (Some {[ "search" := VStr name ]}) None) in
        let* res := get "me/projects" (Some opts) in
        if negb (ok res) then throw (Error "Could not retrieve projects.")
        else
          let* data := body_data (body res) in
          match data with
          | None => throw (TypeError "find")
          | Some ps =>
              match List.find (name_is name) ps with
              | Some project => ret (Some (NewProject project))
              | None => ret None
              end
          end
  | None => ret None
  end.

(** ** Observations on a run *)

(** The events a computation appends to the trace. *)
Definition events_of {A} (m : M A) (e : Env) (s : State) : list Event :=
  drop (length (log s)) (log (snd (m e s))).

(** The request [getToken] sends for a payload. *)
Definition token_request (e : Env) (c : Client) (payload : Obj) : Request :=
  mkRequest POST (urljoin e (baseUrl c) "oauth/token") (token_headers c)
            None (Some payload).

(** The [grant_type] a token request carries. *)
Definition grant_type (ev : Event) : option JVal :=
  match ev with
  | EvToken rq _ => match rq_send rq with
                    | Some p => p !! "grant_type"
                    | None => None
                    end
  | _ => None
  end.

Definition is_token_event (ev : Event) : bool :=
  match ev with EvToken _ _ => true | _ => false end.

(** The client after a successful grant read at time [now]. *)
Definition granted (c : Client) (rs : TokenResponse) (now : Z) : Client :=
  {| version := version c; baseUrl := baseUrl c;
     apiUrl := apiUrl c; username := username c;
     password := password c; userAgent := userAgent c;
     token := Some (access_token rs);
     refreshToken := Some (refresh_token rs);
     tokenExpiration := new_Date (now + expires_in rs * 1000) |}.

Definition auth_error (rs : TokenResponse) : Exn :=
  Error ("Could not retrieve token. Error Reponse: " +:+ error_description rs).

(** [sub] occurs in [s]. *)
Definition includes (sub s : string) : Prop :=
  exists pre post, s = pre +:+ sub +:+ post.

(** The state [s] with its object store replaced. *)
Definition reheap (h : gmap loc Headers) (o : gmap loc Opts) (s : State) : State :=
  {| client := client s; ticks := ticks s; log := log s; hdrs := h; optss := o |}.

(** What [buildHeaders] makes of a header object once it has the token. *)
Definition with_auth (tok : string) (h : Headers) : Headers :=
  let h1 := <["Authorization" := "Bearer " +:+ tok]> h in
  if bool_decide (is_Some (h !! "Accept")) then h1
  else <["Accept" := "application/json"]> h1.

(** The header object [buildHeaders] works on, with the header store once
    the default [{}] has been created. *)
Definition headers_target (headers : option loc) (h : gmap loc Headers)
  : loc * gmap loc Headers :=
  match headers with
  | Some l => (l, h)
  | None => (fresh (dom h), <[fresh (dom h) := ∅]> h)
  end.

(** The same for the default [opts={}] of the request methods. *)
Definition opts_target (opts : option loc) (o : gmap loc Opts)
  : loc * gmap loc Opts :=
  match opts with
  | Some l => (l, o)
  | None => (fresh (dom o), <[fresh (dom o) := mkOpts None None]> o)
  end.

Definition read_opts_at (o : gmap loc Opts) (l : loc) : Opts :=
  default (mkOpts None None) (o !! l).

Definition read_headers_at (h : gmap loc Headers) (l : loc) : Headers :=
  default ∅ (h !! l).

Definition payload_of (ob : Opts) : Obj :=
  match o_payload ob with Some p => p | None => ∅ end.

(** The request [__request] hands to superagent. *)
Definition api_request (method : Method) (endpoint : string) (headers : Headers)
    (payload : Obj) : Request :=
  match method with
  | GET => mkRequest method endpoint headers (Some payload) None
  | _ => mkRequest method endpoint headers None (Some payload)
  end.

(** The header object the caller passed in [opts.headers], if any. *)
Definition caller_headers (opts : option loc) (s : State) : Headers :=
  match opts with
  | Some l => match o_headers (read_opts_at (optss s) l) with
              | Some h => read_headers_at (hdrs s) h
              | None => ∅
              end
  | None => ∅
  end.

(** The payload the caller passed in [opts.payload], [{}] by default. *)
Definition caller_payload (opts : option loc) (s : State) : Obj :=
  match opts with
  | Some l => payload_of (read_opts_at (optss s) l)
  | None => ∅
  end.

(** The request [__request] sends once [getToken] has returned [tok]. *)
Definition request_sent (e : Env) (s : State) (method : Method) (path : string)
    (opts : option loc) (tok : string) : Request :=
  api_request method (urljoin e (apiUrl (client s)) path)
              (with_auth tok (caller_headers opts s)) (caller_payload opts s).

(** The state in which [post] calls [__request], and the [opts] object it
    passes: [opts.headers] has been set to a new header object. *)
Definition post_prepared (opts : option loc) (s : State) : loc * State :=
  let '(o, o0) := opts_target opts (optss s) in
  let h := fresh (dom (hdrs s)) in
  (o, reheap (<[h := {[ "Content-Type" := "application/x-www-form-urlencoded" ]}]> (hdrs s))
             (<[o := mkOpts (o_payload (read_opts_at o0 o)) (Some h)]> o0) s).

(** The responses to the API requests among some events. *)
Definition api_responses (evs : list Event) : list Response :=
  omap (fun ev => match ev with EvApi _ rs => Some rs | _ => None end) evs.

Definition api_requests (evs : list Event) : list Request :=
  omap (fun ev => match ev with EvApi rq _ => Some rq | _ => None end) evs.

(** *** The polling loop as seen from outside *)

(** What an observer of [getProxy] sees: the responses to its queries and
    its sleeps, in order (the token exchanges in between are left out). *)
Definition polling_view (evs : list Event) : list (Response + Z) :=
  omap (fun ev => match ev with
                  | EvApi _ rs => Some (inl rs)
                  | EvSleep ms => Some (inr ms)
                  | EvToken _ _ => None
                  end) evs.

(** The responses in a view. *)
Definition attempts (v : list (Response + Z)) : list Response :=
  omap (fun x => match x with inl r => Some r | inr _ => None end) v.

(** The view of attempts that each were followed by the 5-second sleep. *)
Definition rounds (rs : list Response) : list (Response + Z) :=
  flat_map (fun r => [inl r; inr 5000]) rs.

(** A success response without a proxy in it: the loop goes on. *)
Definition quiet (r : Response) : Prop :=
  ok r = true /\ body_has_length (body r) = false.

(** The last response assigned to [res], [res0] being its value before the
    loop. *)
Definition last_assigned (res0 : option Response) (rs : list Response)
  : option Response :=
  match last rs with
  | Some r => Some r
  | None => res0
  end.

(** The runs of the loop with [n] iterations to go. *)
Inductive PollRun (n : nat) (res0 : option Response)
  : list (Response + Z) -> Outcome (option Response) -> Prop :=
| Poll_exhausted rs :
    Forall quiet rs -> length rs = n ->
    PollRun n res0 (rounds rs) (Ret (last_assigned res0 rs))
| Poll_found rs res :
    Forall quiet rs -> (length rs < n)%nat ->
    ok res = true -> body_has_length (body res) = true ->
    PollRun n res0 (rounds rs ++ [inl res]) (Ret (Some res))
| Poll_refused rs res :
    Forall quiet rs -> (length rs < n)%nat ->
    ok res = false ->
    PollRun n res0 (rounds rs ++ [inl res]) (Throw (Error (error_to_string res)))
| Poll_unauthorized rs tr :
    Forall quiet rs -> (length rs < n)%nat ->
    t_ok tr = false ->
    PollRun n res0 (rounds rs) (Throw (auth_error tr)).

(** The runs of [getProxy]. *)
Inductive ProxyRun (type sessionId : string)
  : list (Response + Z) -> Outcome (option Obj) -> Prop :=
| Proxy_found rs res p l :
    Forall quiet rs -> (length rs < maxRetries)%nat ->
    ok res = true -> body res = BodyList (p :: l) ->
    ProxyRun type sessionId (rounds rs ++ [inl res]) (Ret (Some p))
| Proxy_timeout rs r :
    Forall quiet rs -> length rs = maxRetries ->
    last rs = Some r -> body r <> BodyNone ->
    ProxyRun type sessionId (rounds rs) (Throw (proxy_timeout type sessionId))
| Proxy_no_body rs r :
    Forall quiet rs -> length rs = maxRetries ->
    last rs = Some r -> body r = BodyNone ->
    ProxyRun type sessionId (rounds rs) (Throw (TypeError "length"))
| Proxy_refused rs res :
    Forall quiet rs -> (length rs < maxRetries)%nat ->
    ok res = false ->
    ProxyRun type sessionId (rounds rs ++ [inl res])
             (Throw (Error (error_to_string res)))
| Proxy_unauthorized rs tr :
    Forall quiet rs -> (length rs < maxRetries)%nat ->
    t_ok tr = false ->
    ProxyRun type sessionId (rounds rs) (Throw (auth_error tr)).

(** [r] is what [Array.prototype.find] returns on [l] for the test [f]: the
    first element that passes, [None] ([undefined]) when none does. *)
Definition first_match {A} (f : A -> bool) (l : list A) (r : option A) : Prop :=
  match r with
  | Some x => exists before after,
                l = (before ++ x :: after)%list /\ f x = true /\
                Forall (fun y => f y = false) before
  | None => Forall (fun y => f y = false) l
  end.

(** The GET request of a method that passes the literal payload [p] and no
    headers of its own. *)
Definition literal_get (e : Env) (s : State) (path tok : string) (p : Obj)
  : Request :=
  mkRequest GET (urljoin e (apiUrl (client s)) path)
            {[ "Accept" := "application/json";
               "Authorization" := "Bearer " +:+ tok ]}
            (Some p) None.

(** What [constructor] sets and nothing is meant to change. *)
Definition same_credentials (c c' : Client) : Prop :=
  version c' = version c /\ baseUrl c' = baseUrl c /\ apiUrl c' = apiUrl c /\
  username c' = username c /\ password c' = password c /\
  userAgent c' = userAgent c.

(** A computation that leaves them as they are, whatever the world does. *)
Definition Keeps {A} (m : M A) : Prop :=
  forall e s, same_credentials (client s) (client (snd (m e s))).

(** The time spent sleeping, in milliseconds. *)
Definition slept (evs : list Event) : Z :=
  foldr (fun ev total => match ev with
                         | EvSleep ms => ms + total
                         | _ => total
                         end) 0 evs.

(** The same, read off a view of the polling loop. *)
Definition view_slept (v : list (Response + Z)) : Z :=
  foldr (fun x total => match x with
                        | inr ms => ms + total
                        | inl _ => total
                        end) 0 v.

(** One query of [getProxy] as it goes over the wire. *)
Definition proxy_query (e : Env) (api : string) (type sessionId : string)
    (rq : Request) : Prop :=
  rq_method rq = GET /\
  rq_url rq = urljoin e api
                (util_format e "proxy-plugin/proxies?where=%s"
                   [encodeURIComponent e (util_format e queryFormat [type; sessionId])]) /\
  rq_query rq = Some ∅ /\ rq_send rq = None /\
  exists tok, rq_headers rq = {[ "Accept" := "application/json";
                                 "Authorization" := "Bearer " +:+ tok ]}.

(** ** Sample worlds *)

(** A world whose clock stands at [now], whose OAuth endpoint always answers
    [auth] and whose API endpoint is [api]. *)
Definition sample_env (now : Z) (auth : TokenResponse)
    (api : list Event -> Request -> Response) : Env :=
  {| clock := fun _ => now;
     auth_server := fun _ _ => auth;
     api_server := api;
     urljoin := fun a b => a +:+ b;
     util_format := fun f args => f +:+ String.concat "," args;
     encodeURIComponent := fun q => q |}.

Definition sample_grant : TokenResponse :=
  mkTokenResponse true "" "fresh" "renew" 3600.

Definition sample_client : Client :=
  constructor "0.1.0" "http://cloud/" "joe@example.com" "123456".

(** The sample client holding token [tok] that expires at [expires]. *)
Definition holding (tok : string) (expires : Z) : State :=
  initial {| version := version sample_client;
             baseUrl := baseUrl sample_client;
             apiUrl := apiUrl sample_client;
             username := username sample_client;
             password := password sample_client;
             userAgent := userAgent sample_client;
             token := Some tok;
             refreshToken := Some "renew";
             tokenExpiration := Some expires |}.

Definition always (r : Response) : list Event -> Request -> Response :=
  fun _ _ => r.

(** The clock stands at 5000 ms, grants succeed, the API answers with an
    empty success. *)
Definition calm_env : Env :=
  sample_env 5000 sample_grant (always (mkResponse true "" BodyNone)).

Definition device (id : Z) (name : string) : Obj :=
  {[ "id" := VNum id; "displayName" := VStr name ]}.

Definition sample_devices : list Obj :=
  [device 1 "Flame"; device 2 "Nexus 4"; device 3 "Flame"; device 4 "flame"].

(** The API answers every request with the page of sample devices. *)
Definition devices_env : Env :=
  sample_env 5000 sample_grant (always (mkResponse true "" (BodyPage sample_devices))).

(** The API refuses every request. *)
Definition refusing_env : Env :=
  sample_env 5000 sample_grant (always (mkResponse false "Not Found" BodyNone)).

(** The API finds no proxy, ever. *)
Definition empty_env : Env :=
  sample_env 5000 sample_grant (always (mkResponse true "" (BodyList []))).

Definition sample_proxy : Obj :=
  {[ "id" := VNum 9; "adbPort" := VNum 5037 ]}.

(** The API finds the proxy at the third query: the trace then holds the
    token exchange, two queries and two sleeps. *)
Definition third_time_env : Env :=
  sample_env 5000 sample_grant
    (fun h _ => if (length h <? 5)%nat then mkResponse true "" (BodyList [])
                else mkResponse true "" (BodyList [sample_proxy])).

(** The API creates the session it is asked for. *)
Definition session_env : Env :=
  sample_env 5000 sample_grant
    (always (mkResponse true "" (BodyObject {[ "id" := VNum 12 ]}))).

Definition project (id : Z) (name : string) : Obj :=
  {[ "id" := VNum id; "name" := VStr name ]}.

Definition sample_projects : list Obj :=
  [project 1 "Foobar"; project 2 "Foo"; project 3 "Foo"].

(** The API answers every request with the page of sample projects. *)
Definition projects_env : Env :=
  sample_env 5000 sample_grant (always (mkResponse true "" (BodyPage sample_projects))).

(** The OAuth endpoint refuses every grant. *)
Definition denying_env : Env :=
  sample_env 5000 (mkTokenResponse false "Bad credentials" "" "" 0)
             (always (mkResponse true "" BodyNone)).

(** The OAuth endpoint grants an empty access token. *)
Definition empty_grant_env : Env :=
  sample_env 5000 (mkTokenResponse true "" "" "renew" 3600)
             (always (mkResponse true "" BodyNone)).

(** The OAuth endpoint grants a token with a lifetime beyond the range of
    Date. *)
Definition eternal_grant_env : Env :=
  sample_env 5000 (mkTokenResponse true "" "fresh" "renew" 9000000000000000)
             (always (mkResponse true "" BodyNone)).

(** The sample client with one [opts] object in the store, at location 0:
    a payload and a header object (at location 0 of the header store) that
    the caller filled in. *)
Definition caller_store : State :=
  reheap {[ 0%nat := {[ "x-user" := "foo"; "Accept" := "text/plain" ]} ]}
         {[ 0%nat := mkOpts (Some {[ "limit" := VNum 1 ]}) (Some 0%nat) ]}
         (initial sample_client).

(** * Properties *)

(** ** Token manager *)

Section TokenManager.
Variable e : Env.

Lemma request_token_eq (payload : Obj) (s : State) :
  request_token payload e s =
    let c := client s in
    let rq := token_request e c payload in
    let rs := auth_server e (log s) rq in
    if t_ok rs then
      (Ret (access_token rs),
       {| client := granted c rs (clock e (ticks s));
          ticks := S (ticks s);
          log := log s ++ [EvToken rq rs];
          hdrs := hdrs s; optss := optss s |})
    else
      (Throw (auth_error rs),
       {| client := c; ticks := ticks s;
          log := log s ++ [EvToken rq rs];
          hdrs := hdrs s; optss := optss s |}).
Proof.
  unfold request_token, bind, this, env, token_exchange; simpl.
  destruct (t_ok _); reflexivity.
Qed.

Lemma choose_grant_eq (s : State) :
  choose_grant e s =
    let c := client s in
    match token c with
    | None => (Ret (inl (password_grant c)), s)
    | Some tok =>
        if negb (truthy (token c)) then (Ret (inl (password_grant c)), s)
        else if num_gt_date (clock e (ticks s)) (tokenExpiration c)
        then (Ret (inl (password_grant c)), advance 1 s)
        else if date_gt_num (tokenExpiration c) (clock e (S (ticks s)) + 60000)
        then (Ret (inr tok), advance 2 s)
        else (Ret (inl (refresh_grant c)), advance 2 s)
    end.
Proof.
  unfold choose_grant, bind, this, Date_now, ret; simpl.
  destruct (token (client s)) as [tok|]; [|reflexivity].
  destruct (negb _); [reflexivity|].
  destruct (num_gt_date _ _); [reflexivity|]. simpl.
  destruct (date_gt_num _ _); reflexivity.
Qed.

Lemma getToken_eq (s : State) :
  getToken e s =
    match choose_grant e s with
    | (Ret (inr tok), s') => (Ret tok, s')
    | (Ret (inl payload), s') => request_token payload e s'
    | (Throw x, s') => (Throw x, s')
    end.
Proof.
  unfold getToken, bind. destruct (choose_grant e s) as [[[p|t]|x] s']; reflexivity.
Qed.

Lemma events_of_app {A} (m : M A) (s : State) (evs : list Event) :
  log (snd (m e s)) = (log s ++ evs)%list -> events_of m e s = evs.
Proof. unfold events_of. intros ->. apply drop_app_length. Qed.

(** The three branches, each with the state it leaves. *)
Lemma getToken_password (s : State) :
  truthy (token (client s)) = false \/
  (exists x, tokenExpiration (client s) = Some x /\ x < clock e (ticks s)) ->
  exists k, getToken e s
            = request_token (password_grant (client s)) e (advance k s).
Proof.
  intros H. rewrite getToken_eq, choose_grant_eq. cbv zeta.
  destruct (token (client s)) as [tok|] eqn:Etok.
  - destruct (negb (truthy (Some tok))) eqn:Et.
    + exists 0%nat. destruct s; reflexivity.
    + destruct H as [H | (x & Hx & Hlt)].
      * rewrite H in Et. discriminate.
      * rewrite Hx. simpl. destruct (Z.ltb_spec x (clock e (ticks s))); [|lia].
        exists 1%nat. reflexivity.
  - exists 0%nat. destruct s; reflexivity.
Qed.

Lemma getToken_refresh (s : State) (x : Z) :
  truthy (token (client s)) = true ->
  tokenExpiration (client s) = Some x ->
  clock e (ticks s) <= x ->
  x <= clock e (S (ticks s)) + 60000 ->
  getToken e s = request_token (refresh_grant (client s)) e (advance 2 s).
Proof.
  intros Ht Hx H1 H2. rewrite getToken_eq, choose_grant_eq. cbv zeta.
  destruct (token (client s)) as [tok|] eqn:Etok; [|discriminate].
  rewrite Ht, Hx. simpl.
  destruct (Z.ltb_spec x (clock e (ticks s))); [lia|].
  destruct (Z.ltb_spec (clock e (S (ticks s)) + 60000) x); [lia|].
  reflexivity.
Qed.

Lemma getToken_cached (s : State) (tok : string) (x : Z) :
  token (client s) = Some tok ->
  truthy (token (client s)) = true ->
  tokenExpiration (client s) = Some x ->
  clock e (ticks s) <= x ->
  clock e (S (ticks s)) + 60000 < x ->
  getToken e s = (Ret tok, advance 2 s).
Proof.
  intros Etok Ht Hx H1 H2. rewrite getToken_eq, choose_grant_eq. cbv zeta.
  rewrite Etok in *. rewrite Ht, Hx. simpl.
  destruct (Z.ltb_spec x (clock e (ticks s))); [lia|].
  destruct (Z.ltb_spec (clock e (S (ticks s)) + 60000) x); [|lia].
  reflexivity.
Qed.

Lemma request_token_events (payload : Obj) (s : State) :
  events_of (request_token payload) e s
  = [EvToken (token_request e (client s) payload)
             (auth_server e (log s) (token_request e (client s) payload))].
Proof.
  apply events_of_app. rewrite request_token_eq. cbv zeta.
  destruct (t_ok _); reflexivity.
Qed.

Lemma events_of_moved {A} (m m' : M A) (s s0 : State) :
  m e s = m' e s0 -> log s0 = log s -> events_of m e s = events_of m' e s0.
Proof. unfold events_of. intros -> ->. reflexivity. Qed.

Lemma getToken_log (s : State) :
  exists evs, log (snd (getToken e s)) = (log s ++ evs)%list /\
              (evs = [] \/ exists rq rs, evs = [EvToken rq rs]).
Proof.
  rewrite getToken_eq, choose_grant_eq. cbv zeta.
  assert (Hreq : forall p k,
    exists evs, log (snd (request_token p e (advance k s))) = (log s ++ evs)%list /\
                (evs = [] \/ exists rq rs, evs = [EvToken rq rs])).
  { intros p k. rewrite request_token_eq. cbv zeta.
    destruct (t_ok _); simpl; eexists; split; try reflexivity; right; eauto. }
  assert (Hreq0 : forall p,
    exists evs, log (snd (request_token p e s)) = (log s ++ evs)%list /\
                (evs = [] \/ exists rq rs, evs = [EvToken rq rs])).
  { intros p. specialize (Hreq p 0%nat). destruct s; exact Hreq. }
  destruct (token (client s)) as [tok|]; [|apply Hreq0].
  destruct (negb _); [apply Hreq0|].
  destruct (num_gt_date _ _); [apply Hreq|].
  destruct (date_gt_num _ _); [|apply Hreq].
  exists []. split; [simpl; by rewrite app_nil_r | by left].
Qed.

(** A token that [getToken] returns is the token the client then holds. *)
Lemma getToken_returns_held (s : State) (tok : string) :
  fst (getToken e s) = Ret tok -> token (client (snd (getToken e s))) = Some tok.
Proof.
  rewrite getToken_eq, choose_grant_eq. cbv zeta.
  assert (Hreq : forall p s0,
    fst (request_token p e s0) = Ret tok ->
    token (client (snd (request_token p e s0))) = Some tok).
  { intros p s0. rewrite request_token_eq. cbv zeta.
    destruct (t_ok _); simpl; [congruence | discriminate]. }
  destruct (token (client s)) as [t|] eqn:Et; [|apply Hreq].
  destruct (negb _); [apply Hreq|].
  destruct (num_gt_date _ _); [apply Hreq|].
  destruct (date_gt_num _ _); [|apply Hreq].
  simpl. congruence.
Qed.

End TokenManager.

(** C4. [getToken] splits three ways.  With no token held, or with the first
    clock reading past the stored expiration, it sends a password grant
    (client_id, grant_type=password, username, password); otherwise, with the
    expiration at most 60 seconds after the second clock reading, it sends a
    refresh-token grant (client_id, grant_type=refresh_token, refresh_token);
    otherwise it returns the cached token, sends nothing and leaves the
    client as it was. *)
Theorem getToken_three_way (e : Env) (s : State) :
  let c := client s in
  let now := clock e (ticks s) in
  let now' := clock e (S (ticks s)) in
  let sent payload :=
    [EvToken (token_request e c payload)
             (auth_server e (log s) (token_request e c payload))] in
  (truthy (token c) = false \/
   (exists x, tokenExpiration c = Some x /\ x < now) ->
   events_of getToken e s
   = sent {[ "client_id" := VStr "testdroid-cloud-api";
             "grant_type" := VStr "password";
             "username" := VStr (username c);
             "password" := VStr (password c) ]}) /\
  (forall x, truthy (token c) = true -> tokenExpiration c = Some x ->
             now <= x -> x <= now' + 60000 ->
   events_of getToken e s
   = sent {[ "client_id" := VStr "testdroid-cloud-api";
             "grant_type" := VStr "refresh_token";
             "refresh_token" := js_string (refreshToken c) ]}) /\
  (forall tok x, token c = Some tok -> truthy (token c) = true ->
                 tokenExpiration c = Some x ->
                 now <= x -> now' + 60000 < x ->
   getToken e s = (Ret tok, advance 2 s) /\ events_of getToken e s = []).
Proof.
  cbv zeta. split; [|split].
  - intros H. destruct (getToken_password e s H) as [k Hk].
    rewrite (events_of_moved e _ _ s (advance k s) Hk eq_refl).
    exact (request_token_events e _ (advance k s)).
  - intros x Ht Hx H1 H2.
    rewrite (events_of_moved e _ _ s (advance 2 s)
               (getToken_refresh e s x Ht Hx H1 H2) eq_refl).
    exact (request_token_events e _ (advance 2 s)).
  - intros tok x Etok Ht Hx H1 H2.
    pose proof (getToken_cached e s tok x Etok Ht Hx H1 H2) as Hc.
    split; [exact Hc|].
    apply events_of_app. rewrite Hc. simpl. by rewrite app_nil_r.
Qed.

Lemma getToken_three_way_witness :
  events_of getToken calm_env
            (holding "old" 1000)
  = [EvToken (token_request calm_env
                            (client (holding "old" 1000))
                            (password_grant (client (holding "old" 1000))))
             sample_grant] /\
  events_of getToken calm_env
            (holding "old" 65000)
  = [EvToken (token_request calm_env
                            (client (holding "old" 65000))
                            (refresh_grant (client (holding "old" 65000))))
             sample_grant] /\
  getToken calm_env
           (holding "old" 65001)
  = (Ret "old", advance 2 (holding "old" 65001)).
Proof.
  split; [|split].
  - refine (proj1 (getToken_three_way calm_env (holding "old" 1000)) _).
    right. exists 1000. split; [reflexivity | simpl; lia].
  - refine (proj1 (proj2 (getToken_three_way calm_env (holding "old" 65000)))
              65000 _ _ _ _);
      [reflexivity | reflexivity | simpl; lia | simpl; lia].
  - refine (proj1 (proj2 (proj2 (getToken_three_way calm_env (holding "old" 65001)))
                     "old" 65001 _ _ _ _ _));
      [reflexivity | reflexivity | reflexivity | simpl; lia | simpl; lia].
Defined.

(** C1, at a client whose token has expired: the request [getToken] sends is
    a password grant, not a refresh-token grant. *)
Lemma getToken_expired_sends_password :
  let e := sample_env 5000 sample_grant (always (mkResponse true "" BodyNone)) in
  let s := holding "old" 1000 in
  token (client s) = Some "old" /\
  tokenExpiration (client s) = Some 1000 /\
  1000 < clock e (ticks s) /\
  exists ev, events_of getToken e s = [ev] /\
             grant_type ev = Some (VStr "password") /\
             grant_type ev <> Some (VStr "refresh_token").
Proof.
  cbv zeta. split; [reflexivity|]. split; [reflexivity|].
  split; [simpl; lia|].
  eexists. split; [vm_compute; reflexivity|].
  split; [vm_compute; reflexivity | vm_compute; discriminate].
Qed.

(** C1, amended.  For a client holding a token, [getToken] sends a
    refresh-token grant when the stored expiration has not passed and is at
    most 60 seconds away, and a password grant when the stored expiration
    has passed. *)
Theorem getToken_refresh_or_password (e : Env) (s : State) (x : Z) :
  truthy (token (client s)) = true ->
  tokenExpiration (client s) = Some x ->
  (clock e (ticks s) <= x -> x <= clock e (S (ticks s)) + 60000 ->
   exists ev, events_of getToken e s = [ev] /\
              grant_type ev = Some (VStr "refresh_token")) /\
  (x < clock e (ticks s) ->
   exists ev, events_of getToken e s = [ev] /\
              grant_type ev = Some (VStr "password")).
Proof.
  intros Ht Hx. split.
  - intros H1 H2. eexists. split.
    + rewrite (events_of_moved e _ _ s (advance 2 s)
                 (getToken_refresh e s x Ht Hx H1 H2) eq_refl).
      exact (request_token_events e _ (advance 2 s)).
    + reflexivity.
  - intros H1.
    destruct (getToken_password e s) as [k Hk]; [right; eauto|].
    eexists. split.
    + rewrite (events_of_moved e _ _ s (advance k s) Hk eq_refl).
      exact (request_token_events e _ (advance k s)).
    + reflexivity.
Qed.

Lemma getToken_refresh_or_password_witness :
  (exists ev, events_of getToken
                calm_env
                (holding "old" 65000) = [ev] /\
              grant_type ev = Some (VStr "refresh_token")) /\
  (exists ev, events_of getToken
                calm_env
                (holding "old" 1000) = [ev] /\
              grant_type ev = Some (VStr "password")).
Proof.
  split.
  - refine (proj1 (getToken_refresh_or_password calm_env (holding "old" 65000) 65000
                     eq_refl eq_refl) _ _); simpl; lia.
  - refine (proj2 (getToken_refresh_or_password calm_env (holding "old" 1000) 1000
                     eq_refl eq_refl) _); simpl; lia.
Defined.

(** Two calls in a row: the events of the pair are those of the first call
    followed by those of the second. *)
Lemma getToken_twice_events (e : Env) (s : State) (tok : string) :
  fst (getToken e s) = Ret tok ->
  events_of (getToken >> getToken) e s
  = (events_of getToken e s ++ events_of getToken e (snd (getToken e s)))%list.
Proof.
  intros Hret.
  destruct (getToken_log e s) as (evs1 & Hlog1 & _).
  destruct (getToken_log e (snd (getToken e s))) as (evs2 & Hlog2 & _).
  rewrite (events_of_app e getToken s evs1 Hlog1).
  rewrite (events_of_app e getToken _ evs2 Hlog2).
  apply events_of_app. unfold bind.
  destruct (getToken e s) as [o s1] eqn:E1. simpl in *. subst o.
  rewrite Hlog2, Hlog1. by rewrite app_assoc.
Qed.

(** C5, at a client whose cached token is valid for hours: two calls in a
    row send no token request at all, not one. *)
Lemma getToken_twice_cached_sends_none :
  let s := holding "old" 10000000 in
  token (client s) = Some "old" /\
  tokenExpiration (client s) = Some 10000000 /\
  (forall n, clock calm_env n + 60000 < 10000000) /\
  length (List.filter is_token_event (events_of (getToken >> getToken) calm_env s))
  <> 1%nat.
Proof.
  cbv zeta. split; [reflexivity|]. split; [reflexivity|]. split.
  - intros n. simpl. lia.
  - vm_compute. discriminate.
Qed.

(** C5, amended.  When the first of two calls in a row returns a token and
    that token is held and inside its validity window at the second call
    (not expired, and more than 60 seconds before its expiration), the second
    call returns the same token, sends nothing and leaves the token, the
    refresh token and the expiration as they were; the two calls together
    send what the first one sent: at most one token request, and exactly one
    unless the first call was itself answered from the cache. *)
Theorem getToken_reuse (e : Env) (s : State) (tok : string) (x : Z) :
  let s1 := snd (getToken e s) in
  fst (getToken e s) = Ret tok ->
  truthy (token (client s1)) = true ->
  tokenExpiration (client s1) = Some x ->
  clock e (ticks s1) <= x ->
  clock e (S (ticks s1)) + 60000 < x ->
  getToken e s1 = (Ret tok, advance 2 s1) /\
  events_of getToken e s1 = [] /\
  client (snd (getToken e s1)) = client s1 /\
  events_of (getToken >> getToken) e s = events_of getToken e s /\
  (events_of getToken e s = [] \/
   exists rq rs, events_of getToken e s = [EvToken rq rs]).
Proof.
  intros s1 Hret Ht Hx H1 H2.
  pose proof (getToken_returns_held e s tok Hret) as Hheld. fold s1 in Hheld.
  pose proof (getToken_cached e s1 tok x Hheld Ht Hx H1 H2) as Hc.
  assert (Hnone : events_of getToken e s1 = []).
  { apply events_of_app. rewrite Hc. simpl. by rewrite app_nil_r. }
  split; [exact Hc|]. split; [exact Hnone|]. split; [by rewrite Hc|]. split.
  - rewrite (getToken_twice_events e s tok Hret). fold s1.
    rewrite Hnone. by rewrite app_nil_r.
  - destruct (getToken_log e s) as (evs & Hlog & Hshape).
    by rewrite (events_of_app e getToken s evs Hlog).
Qed.

Lemma getToken_reuse_witness :
  getToken calm_env (snd (getToken calm_env (initial sample_client)))
  = (Ret "fresh", advance 2 (snd (getToken calm_env (initial sample_client)))) /\
  length (events_of (getToken >> getToken) calm_env (initial sample_client)) = 1%nat.
Proof.
  destruct (getToken_reuse calm_env (initial sample_client) "fresh" 3605000)
    as (H1 & _ & _ & H4 & _);
    [reflexivity | reflexivity | reflexivity | simpl; lia | simpl; lia |].
  split; [exact H1|]. rewrite H4. reflexivity.
Defined.

(** ** Generic request primitive *)

Section Requests.
Variable e : Env.

Lemma getToken_reheap (h : gmap loc Headers) (o : gmap loc Opts) (s : State) :
  getToken e (reheap h o s)
  = (fst (getToken e s), reheap h o (snd (getToken e s))).
Proof.
  rewrite !getToken_eq, !choose_grant_eq. cbv zeta. simpl.
  assert (Hreq : forall p s0,
    request_token p e (reheap h o s0)
    = (fst (request_token p e s0), reheap h o (snd (request_token p e s0)))).
  { intros p s0. rewrite !request_token_eq. cbv zeta. simpl.
    destruct (t_ok _); reflexivity. }
  destruct (token (client s)) as [tok|]; [|apply Hreq].
  destruct (negb _); [apply Hreq|].
  destruct (num_gt_date _ _); [apply (Hreq _ (advance 1 s))|].
  destruct (date_gt_num _ _); [reflexivity | apply (Hreq _ (advance 2 s))].
Qed.

Lemma getToken_heap (s : State) :
  hdrs (snd (getToken e s)) = hdrs s /\ optss (snd (getToken e s)) = optss s.
Proof.
  rewrite getToken_eq, choose_grant_eq. cbv zeta.
  assert (Hreq : forall p s0,
    hdrs (snd (request_token p e s0)) = hdrs s0 /\
    optss (snd (request_token p e s0)) = optss s0).
  { intros p s0. rewrite request_token_eq. cbv zeta.
    destruct (t_ok _); split; reflexivity. }
  destruct (token (client s)) as [tok|]; [|apply Hreq].
  destruct (negb _); [apply Hreq|].
  destruct (num_gt_date _ _); [apply (Hreq _ (advance 1 s))|].
  destruct (date_gt_num _ _); [split; reflexivity | apply (Hreq _ (advance 2 s))].
Qed.

Lemma buildHeaders_eq (headers : option loc) (s : State) :
  buildHeaders headers e s =
    let '(l, h0) := headers_target headers (hdrs s) in
    match getToken e s with
    | (Ret tok, s1) =>
        (Ret l, reheap (<[l := with_auth tok (read_headers_at h0 l)]> h0)
                       (optss s) s1)
    | (Throw x, s1) => (Throw x, reheap h0 (optss s) s1)
    end.
Proof.
  unfold buildHeaders, bind, headers_target.
  destruct headers as [l|]; simpl.
  - unfold ret at 1.
    destruct (getToken e s) as [[tok|x] s1] eqn:E.
    + pose proof (getToken_heap s) as [Hh Ho]. rewrite E in Hh, Ho. simpl in *.
      unfold set_header, read_headers, ret, reheap, with_auth, read_headers_at; simpl.
      rewrite Hh, Ho, lookup_insert_eq. simpl.
      rewrite lookup_insert_ne by done.
      destruct (bool_decide _); simpl.
      * reflexivity.
      * rewrite lookup_insert_eq, insert_insert_eq. reflexivity.
    + pose proof (getToken_heap s) as [Hh Ho]. rewrite E in Hh, Ho. simpl in *.
      unfold reheap. rewrite <- Hh, <- Ho. by destruct s1.
  - change (mkState (client s) (ticks s) (log s) ?h (optss s))
      with (reheap h (optss s) s).
    rewrite getToken_reheap.
    destruct (getToken e s) as [[tok|x] s1] eqn:E; simpl; [|reflexivity].
    unfold set_header, read_headers, ret, reheap, with_auth, read_headers_at; simpl.
    rewrite !lookup_insert_eq. simpl. rewrite lookup_insert_ne by done.
    rewrite lookup_empty.
    assert (Hb : bool_decide (is_Some (@None string)) = false).
    { apply bool_decide_eq_false. by intros [? ?]. }
    rewrite Hb. simpl. rewrite lookup_insert_eq.
    by rewrite !insert_insert_eq.
Qed.

Lemma request_eq (method : Method) (path : string) (opts : option loc)
    (s : State) :
  __request method path opts e s =
    let '(o, o0) := opts_target opts (optss s) in
    let ob := read_opts_at o0 o in
    let '(l, h0) := headers_target (o_headers ob) (hdrs s) in
    match getToken e s with
    | (Ret tok, s1) =>
        let h := with_auth tok (read_headers_at h0 l) in
        let rq := api_request method (urljoin e (apiUrl (client s)) path) h
                              (payload_of ob) in
        let rs := api_server e (log s1) rq in
        (Ret rs, {| client := client s1; ticks := ticks s1;
                    log := log s1 ++ [EvApi rq rs];
                    hdrs := <[l := h]> h0; optss := o0 |})
    | (Throw x, s1) => (Throw x, reheap h0 o0 s1)
    end.
Proof.
  assert (Hgo : forall o o0,
    (let* c := this in
     let* endpoint := env (fun e => urljoin e (apiUrl c) path) in
     let* ob := read_opts o in
     let payload := match o_payload ob with Some p => p | None => ∅ end in
     let* h := buildHeaders (o_headers ob) in
     let* headers := read_headers h in
     api_exchange
       (match method with
        | GET => mkRequest method endpoint headers (Some payload) None
        | _ => mkRequest method endpoint headers None (Some payload)
        end)) e (reheap (hdrs s) o0 s)
    = let ob := read_opts_at o0 o in
      let '(l, h0) := headers_target (o_headers ob) (hdrs s) in
      match getToken e s with
      | (Ret tok, s1) =>
          let h := with_auth tok (read_headers_at h0 l) in
          let rq := api_request method (urljoin e (apiUrl (client s)) path) h
                                (payload_of ob) in
          let rs := api_server e (log s1) rq in
          (Ret rs, {| client := client s1; ticks := ticks s1;
                      log := log s1 ++ [EvApi rq rs];
                      hdrs := <[l := h]> h0; optss := o0 |})
      | (Throw x, s1) => (Throw x, reheap h0 o0 s1)
      end).
  { intros o o0. unfold bind at 1. unfold this at 1.
    unfold bind at 1. unfold env at 1.
    unfold bind at 1. unfold read_opts at 1.
    unfold bind at 1. rewrite buildHeaders_eq.
    cbn [client hdrs optss reheap]. fold (read_opts_at o0 o).
    destruct (headers_target _ _) as [l h0].
    rewrite getToken_reheap.
    destruct (getToken e s) as [[tok|x] s1]; [|reflexivity].
    cbn [fst snd].
    unfold bind, read_headers, api_exchange, api_request, payload_of,
      read_headers_at, reheap.
    cbn [client hdrs optss ticks log]. rewrite lookup_insert_eq.
    cbn [default]. destruct method; reflexivity. }
  unfold __request. unfold bind at 1. unfold default_opts.
  destruct opts as [o|]; cbn [opts_target].
  - unfold ret at 1. specialize (Hgo o (optss s)).
    replace (reheap (hdrs s) (optss s) s) with s in Hgo by (by destruct s).
    exact Hgo.
  - unfold new_opts at 1. apply Hgo.
Qed.

Lemma with_auth_Authorization (tok : string) (h : Headers) :
  with_auth tok h !! "Authorization" = Some ("Bearer " +:+ tok).
Proof.
  unfold with_auth. destruct (bool_decide _).
  - apply lookup_insert_eq.
  - rewrite lookup_insert_ne by done. apply lookup_insert_eq.
Qed.

Lemma with_auth_Accept (tok : string) (h : Headers) :
  with_auth tok h !! "Accept"
  = Some (default "application/json" (h !! "Accept")).
Proof.
  unfold with_auth. destruct (bool_decide _) eqn:Hb.
  - apply bool_decide_eq_true in Hb. destruct Hb as [a Ha].
    rewrite lookup_insert_ne by done. by rewrite Ha.
  - apply bool_decide_eq_false in Hb.
    rewrite lookup_insert_eq. destruct (h !! "Accept") eqn:Ha; [|done].
    exfalso. apply Hb. eauto.
Qed.

Lemma with_auth_other (tok : string) (h : Headers) (k : string) :
  k <> "Authorization" -> k <> "Accept" -> with_auth tok h !! k = h !! k.
Proof.
  intros H1 H2. unfold with_auth. destruct (bool_decide _).
  - by rewrite lookup_insert_ne.
  - by rewrite !lookup_insert_ne.
Qed.

Lemma target_headers (opts : option loc) (s : State) :
  let '(o, o0) := opts_target opts (optss s) in
  let '(l, h0) := headers_target (o_headers (read_opts_at o0 o)) (hdrs s) in
  read_headers_at h0 l = caller_headers opts s /\
  payload_of (read_opts_at o0 o) = caller_payload opts s.
Proof.
  unfold opts_target, caller_headers, caller_payload.
  destruct opts as [o|].
  - unfold headers_target. destruct (o_headers _) as [l|]; [done|].
    unfold read_headers_at. by rewrite lookup_insert_eq.
  - unfold read_opts_at at 1. rewrite lookup_insert_eq. simpl.
    unfold read_headers_at, read_opts_at. by rewrite !lookup_insert_eq.
Qed.

(** What a run of [__request] returns and what it leaves of the client,
    the clock and the trace, from the run of [getToken] inside it. *)
Lemma request_run (method : Method) (path : string) (opts : option loc)
    (s : State) :
  let r := __request method path opts e s in
  match getToken e s with
  | (Ret tok, s1) =>
      let rq := request_sent e s method path opts tok in
      let rs := api_server e (log s1) rq in
      fst r = Ret rs /\ log (snd r) = (log s1 ++ [EvApi rq rs])%list /\
      client (snd r) = client s1 /\ ticks (snd r) = ticks s1
  | (Throw x, s1) =>
      fst r = Throw x /\ log (snd r) = log s1 /\
      client (snd r) = client s1 /\ ticks (snd r) = ticks s1
  end.
Proof.
  cbv zeta. rewrite request_eq. pose proof (target_headers opts s) as Ht.
  destruct (opts_target _ _) as [o o0].
  cbv zeta. destruct (headers_target _ _) as [l h0].
  destruct Ht as [Hh Hp]. unfold request_sent. rewrite <- Hh, <- Hp.
  destruct (getToken e s) as [[tok|x] s1]; simpl; done.
Qed.

End Requests.

Lemma api_request_headers (method : Method) (url : string) (h : Headers)
    (p : Obj) :
  rq_headers (api_request method url h p) = h.
Proof. by destruct method. Qed.

(** The events of a run of [__request]: those of [getToken], then the one
    exchange with the API if the token was obtained. *)
Lemma request_events (e : Env) (s : State) (method : Method) (path : string)
    (opts : option loc) :
  events_of (__request method path opts) e s
  = (events_of getToken e s ++
     match getToken e s with
     | (Ret tok, s1) =>
         [EvApi (request_sent e s method path opts tok)
                (api_server e (log s1) (request_sent e s method path opts tok))]
     | (Throw _, _) => []
     end)%list.
Proof.
  destruct (getToken_log e s) as (evs & Hlog & _).
  rewrite (events_of_app e getToken s evs Hlog).
  apply events_of_app.
  pose proof (request_run e method path opts s) as Hrun. cbv zeta in Hrun.
  destruct (getToken e s) as [[tok|x] s1]; simpl in *.
  - destruct Hrun as (_ & -> & _). rewrite Hlog. by rewrite app_assoc.
  - destruct Hrun as (_ & -> & _). rewrite Hlog. by rewrite app_nil_r.
Qed.

Lemma api_requests_app (a b : list Event) :
  api_requests (a ++ b) = (api_requests a ++ api_requests b)%list.
Proof. apply omap_app. Qed.

Lemma api_responses_app (a b : list Event) :
  api_responses (a ++ b) = (api_responses a ++ api_responses b)%list.
Proof. apply omap_app. Qed.

Lemma getToken_no_api (e : Env) (s : State) :
  api_requests (events_of getToken e s) = [] /\
  api_responses (events_of getToken e s) = [].
Proof.
  destruct (getToken_log e s) as (evs & Hlog & Hshape).
  rewrite (events_of_app e getToken s evs Hlog).
  destruct Hshape as [-> | (rq & rs & ->)]; done.
Qed.

(** The header object a request carries is the caller's, completed by
    [buildHeaders]. *)
Lemma request_carries_header_object (e : Env) (s : State) (method : Method)
    (path : string) (opts : option loc) :
  match fst (getToken e s) with
  | Ret tok =>
      exists rq,
        api_requests (events_of (__request method path opts) e s) = [rq] /\
        rq_headers rq = with_auth tok (caller_headers opts s)
  | Throw _ =>
      api_requests (events_of (__request method path opts) e s) = []
  end.
Proof.
  rewrite request_events, api_requests_app.
  destruct (getToken_no_api e s) as [-> _].
  destruct (getToken e s) as [[tok|x] s1]; simpl; [|reflexivity].
  eexists. split; [reflexivity|].
  unfold request_sent. by rewrite api_request_headers.
Qed.

(** C10. Every request [__request] sends carries [Authorization] equal to
    "Bearer " followed by the token [getToken] returned, whatever header
    object the caller supplied; an [Accept] header of the caller is kept, and
    [Accept] is "application/json" only when the caller gave none; the
    other headers of the caller pass through.  When [getToken] throws, no
    request is sent. *)
Theorem request_carries_token (e : Env) (s : State) (method : Method)
    (path : string) (opts : option loc) :
  match fst (getToken e s) with
  | Ret tok =>
      exists rq,
        api_requests (events_of (__request method path opts) e s) = [rq] /\
        rq_headers rq !! "Authorization" = Some ("Bearer " +:+ tok) /\
        rq_headers rq !! "Accept"
        = Some (default "application/json" (caller_headers opts s !! "Accept")) /\
        (forall k, k <> "Authorization" -> k <> "Accept" ->
                   rq_headers rq !! k = caller_headers opts s !! k)
  | Throw _ =>
      api_requests (events_of (__request method path opts) e s) = []
  end.
Proof.
  rewrite request_events, api_requests_app.
  destruct (getToken_no_api e s) as [-> _].
  destruct (getToken e s) as [[tok|x] s1]; simpl; [|reflexivity].
  eexists. split; [reflexivity|].
  unfold request_sent. rewrite api_request_headers.
  split; [apply with_auth_Authorization|].
  split; [apply with_auth_Accept | apply with_auth_other].
Qed.

(** ** Verb wrappers *)

(** A method that fills in the default [opts] and passes it on sends what
    [__request] sends when it fills in the default itself. *)
Lemma default_opts_request (e : Env) (method : Method) (path : string)
    (opts : option loc) (s : State) :
  (let* o := default_opts opts in __request method path (Some o)) e s
  = __request method path opts e s.
Proof. unfold __request, default_opts, bind. by destruct opts. Qed.

Lemma get_eq (e : Env) (path : string) (opts : option loc) (s : State) :
  get path opts e s =
    match __request GET path opts e s with
    | (Ret res, s') =>
        (if ok res then Ret res else Throw (Error (error_to_string res)), s')
    | (Throw x, s') => (Throw x, s')
    end.
Proof.
  rewrite <- (default_opts_request e GET path opts s).
  unfold get. unfold bind at 1 3.
  destruct (default_opts opts e s) as [[o|y] s0]; [|done].
  unfold bind. destruct (__request _ _ _ _ _) as [[res|x] s']; [|done].
  by destruct (ok res).
Qed.

Lemma del_eq (e : Env) (path : string) (s : State) :
  del path e s =
    match __request DELETE path None e s with
    | (Ret res, s') =>
        (if ok res then Ret res else Throw (Error (error_to_string res)), s')
    | (Throw x, s') => (Throw x, s')
    end.
Proof.
  unfold del, bind. destruct (__request _ _ _ _ _) as [[res|x] s']; [|done].
  by destruct (ok res).
Qed.

Lemma post_eq (e : Env) (path : string) (opts : option loc) (s : State) :
  post path opts e s
  = __request POST path (Some (fst (post_prepared opts s))) e
              (snd (post_prepared opts s)).
Proof.
  unfold post, post_prepared, opts_target, default_opts, bind.
  destruct opts as [o|]; simpl.
  - unfold set_opts_headers, read_opts_at, reheap; simpl.
    destruct (__request _ _ _ _ _) as [[res|x] s']; done.
  - unfold set_opts_headers, read_opts_at, reheap; simpl.
    rewrite !lookup_insert_eq, insert_insert_eq. simpl.
    destruct (__request _ _ _ _ _) as [[res|x] s']; done.
Qed.

Lemma append_empty_r (s : string) : s +:+ "" = s.
Proof.
  induction s as [|a s IH]; [reflexivity | exact (f_equal (String a) IH)].
Qed.

Lemma append_assoc (a b c : string) : (a +:+ b) +:+ c = a +:+ (b +:+ c).
Proof.
  induction a as [|x a IH]; [reflexivity | exact (f_equal (String x) IH)].
Qed.

Lemma includes_suffix (pre s : string) : includes s (pre +:+ s).
Proof. exists pre, "". by rewrite append_empty_r. Qed.

Lemma error_to_string_includes (res : Response) :
  includes (res_error_message res) (error_to_string res).
Proof.
  unfold error_to_string, includes.
  destruct (String.eqb_spec (res_error_message res) "") as [-> | Hne].
  - exists "Error", "". reflexivity.
  - apply includes_suffix.
Qed.

Lemma request_outcome (e : Env) (s : State) (method : Method) (path : string)
    (opts : option loc) :
  match fst (getToken e s) with
  | Ret _ =>
      exists res,
        api_responses (events_of (__request method path opts) e s) = [res] /\
        fst (__request method path opts e s) = Ret res
  | Throw x =>
      api_responses (events_of (__request method path opts) e s) = [] /\
      fst (__request method path opts e s) = Throw x
  end.
Proof.
  rewrite request_events, api_responses_app.
  destruct (getToken_no_api e s) as [_ ->].
  pose proof (request_run e method path opts s) as Hrun. cbv zeta in Hrun.
  destruct (getToken e s) as [[tok|x] s1]; simpl in *.
  - eexists. split; [reflexivity | apply Hrun].
  - split; [reflexivity | apply Hrun].
Qed.

Lemma get_state (e : Env) (path : string) (opts : option loc) (s : State) :
  snd (get path opts e s) = snd (__request GET path opts e s).
Proof.
  rewrite get_eq. by destruct (__request _ _ _ _ _) as [[res|x] s'].
Qed.

Lemma del_state (e : Env) (path : string) (s : State) :
  snd (del path e s) = snd (__request DELETE path None e s).
Proof.
  rewrite del_eq. by destruct (__request _ _ _ _ _) as [[res|x] s'].
Qed.

Lemma get_events (e : Env) (path : string) (opts : option loc) (s : State) :
  events_of (get path opts) e s = events_of (__request GET path opts) e s.
Proof. unfold events_of. by rewrite get_state. Qed.

Lemma del_events (e : Env) (path : string) (s : State) :
  events_of (del path) e s = events_of (__request DELETE path None) e s.
Proof. unfold events_of. by rewrite del_state. Qed.

Lemma post_events (e : Env) (path : string) (opts : option loc) (s : State) :
  events_of (post path opts) e s
  = events_of (__request POST path (Some (fst (post_prepared opts s)))) e
              (snd (post_prepared opts s)).
Proof.
  apply events_of_moved; [apply post_eq|].
  unfold post_prepared. by destruct (opts_target _ _).
Qed.

Lemma post_prepared_token (e : Env) (opts : option loc) (s : State) :
  fst (getToken e (snd (post_prepared opts s))) = fst (getToken e s).
Proof.
  unfold post_prepared. destruct (opts_target _ _) as [o o0]. simpl.
  by rewrite getToken_reheap.
Qed.

Lemma get_outcome (e : Env) (s : State) (path : string) (opts : option loc) :
  match fst (getToken e s) with
  | Ret _ =>
      exists res,
        api_responses (events_of (get path opts) e s) = [res] /\
        fst (get path opts e s)
        = (if ok res then Ret res else Throw (Error (error_to_string res)))
  | Throw x =>
      api_responses (events_of (get path opts) e s) = [] /\
      fst (get path opts e s) = Throw x
  end.
Proof.
  pose proof (request_outcome e s GET path opts) as H.
  rewrite get_events, get_eq.
  destruct (fst (getToken e s)) as [tok|x].
  - destruct H as (r & Hr & Ho). exists r. split; [exact Hr|].
    destruct (__request GET path opts e s) as [[res|y] s']; simpl in *;
      [|discriminate].
    injection Ho as ->. reflexivity.
  - destruct H as (Hr & Ho). split; [exact Hr|].
    destruct (__request GET path opts e s) as [[res|y] s']; simpl in *;
      [discriminate | exact Ho].
Qed.

Lemma del_outcome (e : Env) (s : State) (path : string) :
  match fst (getToken e s) with
  | Ret _ =>
      exists res,
        api_responses (events_of (del path) e s) = [res] /\
        fst (del path e s)
        = (if ok res then Ret res else Throw (Error (error_to_string res)))
  | Throw x =>
      api_responses (events_of (del path) e s) = [] /\
      fst (del path e s) = Throw x
  end.
Proof.
  pose proof (request_outcome e s DELETE path None) as H.
  rewrite del_events, del_eq.
  destruct (fst (getToken e s)) as [tok|x].
  - destruct H as (r & Hr & Ho). exists r. split; [exact Hr|].
    destruct (__request DELETE path None e s) as [[res|y] s']; simpl in *;
      [|discriminate].
    injection Ho as ->. reflexivity.
  - destruct H as (Hr & Ho). split; [exact Hr|].
    destruct (__request DELETE path None e s) as [[res|y] s']; simpl in *;
      [discriminate | exact Ho].
Qed.

Lemma post_outcome (e : Env) (s : State) (path : string) (opts : option loc) :
  match fst (getToken e s) with
  | Ret _ =>
      exists res,
        api_responses (events_of (post path opts) e s) = [res] /\
        fst (post path opts e s) = Ret res
  | Throw x =>
      api_responses (events_of (post path opts) e s) = [] /\
      fst (post path opts e s) = Throw x
  end.
Proof.
  pose proof (request_outcome e (snd (post_prepared opts s)) POST path
                (Some (fst (post_prepared opts s)))) as H.
  rewrite post_prepared_token in H.
  by rewrite post_events, post_eq.
Qed.

(** C2, at a response that indicates failure: [post] returns it and throws
    nothing. *)
Lemma post_returns_failure :
  let failure := mkResponse false "Not Found" BodyNone in
  let e := sample_env 5000 sample_grant (always failure) in
  api_responses (events_of (post "me/device-sessions" None) e (initial sample_client))
  = [failure] /\
  ok failure = false /\
  fst (post "me/device-sessions" None e (initial sample_client)) = Ret failure.
Proof. cbv zeta. split; [|split]; vm_compute; reflexivity. Qed.

(** C2, amended.  [get] and [del] throw an Error whose message is the text of
    the response's error, which includes the server's message, when the
    response they receive indicates failure, and return the response
    otherwise; [post] returns the response it receives in both cases.  (When
    the token cannot be obtained, no request is sent and that failure is what
    all three throw.) *)
Theorem verbs_on_response (e : Env) (s : State) (path : string)
    (opts : option loc) :
  match fst (getToken e s) with
  | Ret _ =>
      (exists res,
         api_responses (events_of (get path opts) e s) = [res] /\
         fst (get path opts e s)
         = (if ok res then Ret res else Throw (Error (error_to_string res))) /\
         includes (res_error_message res) (error_to_string res)) /\
      (exists res,
         api_responses (events_of (del path) e s) = [res] /\
         fst (del path e s)
         = (if ok res then Ret res else Throw (Error (error_to_string res))) /\
         includes (res_error_message res) (error_to_string res)) /\
      (exists res,
         api_responses (events_of (post path opts) e s) = [res] /\
         fst (post path opts e s) = Ret res)
  | Throw x =>
      (api_responses (events_of (get path opts) e s) = [] /\
       fst (get path opts e s) = Throw x) /\
      (api_responses (events_of (del path) e s) = [] /\
       fst (del path e s) = Throw x) /\
      (api_responses (events_of (post path opts) e s) = [] /\
       fst (post path opts e s) = Throw x)
  end.
Proof.
  pose proof (get_outcome e s path opts) as Hget.
  pose proof (del_outcome e s path) as Hdel.
  pose proof (post_outcome e s path opts) as Hpost.
  destruct (fst (getToken e s)) as [tok|x].
  - destruct Hget as (r1 & Hr1 & Ho1). destruct Hdel as (r2 & Hr2 & Ho2).
    split; [|split; [|exact Hpost]].
    + exists r1. auto using error_to_string_includes.
    + exists r2. auto using error_to_string_includes.
  - auto.
Qed.

(** C9. [post] sets [opts.headers] to a new object holding the single header
    Content-Type: application/x-www-form-urlencoded and then calls
    [__request] on that same [opts] object.  The request carries that
    header, the bearer token and the default Accept and nothing of the
    headers the caller had put in [opts.headers]; the caller's [opts] object
    now refers to the new header object, and every header object that
    existed before the call is as it was. *)
Theorem post_replaces_headers (e : Env) (s : State) (path : string)
    (opts : option loc) :
  let o := fst (opts_target opts (optss s)) in
  let o0 := snd (opts_target opts (optss s)) in
  let h := fresh (dom (hdrs s)) in
  let s' := snd (post path opts e s) in
  post path opts e s = __request POST path (Some o) e (snd (post_prepared opts s)) /\
  caller_headers (Some o) (snd (post_prepared opts s))
  = {[ "Content-Type" := "application/x-www-form-urlencoded" ]} /\
  (match fst (getToken e s) with
   | Ret tok =>
       exists rq,
         api_requests (events_of (post path opts) e s) = [rq] /\
         rq_headers rq
         = {[ "Accept" := "application/json";
              "Authorization" := "Bearer " +:+ tok;
              "Content-Type" := "application/x-www-form-urlencoded" ]}
   | Throw _ => api_requests (events_of (post path opts) e s) = []
   end) /\
  optss s' = <[o := mkOpts (o_payload (read_opts_at o0 o)) (Some h)]> o0 /\
  (h ∉ dom (hdrs s)) /\
  (forall l, l <> h -> hdrs s' !! l = hdrs s !! l).
Proof.
  cbv zeta.
  assert (Hprep : fst (post_prepared opts s) = fst (opts_target opts (optss s))).
  { unfold post_prepared. by destruct (opts_target _ _). }
  assert (Hcall : caller_headers (Some (fst (opts_target opts (optss s))))
                    (snd (post_prepared opts s))
                  = {[ "Content-Type" := "application/x-www-form-urlencoded" ]}).
  { unfold caller_headers, post_prepared.
    destruct (opts_target _ _) as [o o0]. simpl.
    unfold read_opts_at at 1. rewrite lookup_insert_eq. simpl.
    unfold read_headers_at. by rewrite lookup_insert_eq. }
  split; [by rewrite post_eq, Hprep|].
  split; [exact Hcall|].
  split; [|split; [|split]].
  - pose proof (request_carries_header_object e (snd (post_prepared opts s)) POST path
                  (Some (fst (post_prepared opts s)))) as Hrq.
    rewrite post_prepared_token in Hrq. rewrite post_events.
    destruct (fst (getToken e s)) as [tok|x]; [|exact Hrq].
    destruct Hrq as (rq & Hone & Hhd). exists rq. split; [exact Hone|].
    rewrite Hhd, Hprep, Hcall. unfold with_auth.
    rewrite lookup_singleton_ne by done.
    assert (Hb : bool_decide (is_Some (@None string)) = false).
    { apply bool_decide_eq_false. by intros [? ?]. }
    by rewrite Hb.
  - rewrite post_eq, request_eq. unfold post_prepared.
    destruct (opts_target opts (optss s)) as [o o0]. simpl.
    unfold read_opts_at at 1 2. rewrite lookup_insert_eq. simpl.
    rewrite getToken_reheap.
    by destruct (getToken e s) as [[tok|x] s1].
  - apply is_fresh.
  - intros l Hl. rewrite post_eq, request_eq. unfold post_prepared.
    destruct (opts_target opts (optss s)) as [o o0]. simpl.
    unfold read_opts_at at 1 2. rewrite lookup_insert_eq. simpl.
    rewrite getToken_reheap.
    destruct (getToken e s) as [[tok|x] s1]; simpl.
    + by rewrite !lookup_insert_ne.
    + by rewrite lookup_insert_ne.
Qed.

Lemma post_replaces_headers_witness :
  hdrs (snd (post "devices" (Some 0%nat) calm_env caller_store)) !! 0%nat
  = Some {[ "x-user" := "foo"; "Accept" := "text/plain" ]} /\
  optss (snd (post "devices" (Some 0%nat) calm_env caller_store)) !! 0%nat
  = Some (mkOpts (Some {[ "limit" := VNum 1 ]}) (Some 1%nat)).
Proof.
  destruct (post_replaces_headers calm_env caller_store "devices" (Some 0%nat))
    as (_ & _ & _ & Ho & _ & Hh).
  split.
  - refine (eq_trans (Hh 0%nat _) _); [|reflexivity].
    intros H. vm_compute in H. discriminate H.
  - refine (eq_trans (f_equal (fun m => m !! 0%nat) Ho) _). reflexivity.
Defined.

(** ** Resource operations *)

(** A run of [get], from the run of [getToken] inside it. *)
Lemma get_run (e : Env) (path : string) (opts : option loc) (s : State) :
  let r := get path opts e s in
  match getToken e s with
  | (Ret tok, s1) =>
      let rq := request_sent e s GET path opts tok in
      let rs := api_server e (log s1) rq in
      fst r = (if ok rs then Ret rs else Throw (Error (error_to_string rs))) /\
      log (snd r) = (log s1 ++ [EvApi rq rs])%list /\
      client (snd r) = client s1 /\ ticks (snd r) = ticks s1
  | (Throw x, s1) =>
      fst r = Throw x /\ log (snd r) = log s1 /\
      client (snd r) = client s1 /\ ticks (snd r) = ticks s1
  end.
Proof.
  cbv zeta. pose proof (request_run e GET path opts s) as H. cbv zeta in H.
  rewrite get_eq.
  destruct (getToken e s) as [[tok|x] s1];
    destruct (__request GET path opts e s) as [[res|y] s']; simpl in *;
    destruct H as (Ho & Hl & Hc & Ht); try discriminate.
  - injection Ho as ->. auto.
  - injection Ho as ->. auto.
Qed.

Lemma with_auth_empty (tok : string) :
  with_auth tok ∅
  = {[ "Accept" := "application/json"; "Authorization" := "Bearer " +:+ tok ]}.
Proof.
  unfold with_auth. rewrite lookup_empty.
  assert (Hb : bool_decide (is_Some (@None string)) = false).
  { apply bool_decide_eq_false. by intros [? ?]. }
  rewrite Hb. by rewrite insert_empty.
Qed.

(** The state after the literal [{ payload: p }] has been created. *)
Lemma literal_opts (e : Env) (p : Obj) (s : State) :
  new_opts (mkOpts (Some p) None) e s
  = (Ret (fresh (dom (optss s))),
     reheap (hdrs s) (<[fresh (dom (optss s)) := mkOpts (Some p) None]> (optss s)) s).
Proof. reflexivity. Qed.

Lemma literal_opts_sent (e : Env) (p : Obj) (s : State) (method : Method)
    (path tok : string) :
  let s0 := reheap (hdrs s)
                   (<[fresh (dom (optss s)) := mkOpts (Some p) None]> (optss s)) s in
  request_sent e s0 method path (Some (fresh (dom (optss s)))) tok
  = api_request method (urljoin e (apiUrl (client s)) path)
      {[ "Accept" := "application/json"; "Authorization" := "Bearer " +:+ tok ]} p.
Proof.
  cbv zeta. unfold request_sent, caller_headers, caller_payload, read_opts_at.
  simpl. rewrite lookup_insert_eq. simpl. by rewrite with_auth_empty.
Qed.

Lemma filter_displayName (X : string) (devices : list Obj) (d : Obj) :
  d ∈ List.filter (displayName_is X) devices
  <-> d ∈ devices /\ d !! "displayName" = Some (VStr X).
Proof.
  rewrite !list_elem_of_In, filter_In. unfold displayName_is.
  by rewrite bool_decide_eq_true.
Qed.

(** [getDevicesByName] from the run of [get] inside it. *)
Lemma getDevicesByName_eq (e : Env) (s : State) (X : string) :
  let l := fresh (dom (optss s)) in
  let s0 := reheap (hdrs s)
              (<[l := mkOpts (Some {[ "limit" := VNum 0 ]}) None]> (optss s)) s in
  getDevicesByName X e s
  = match get "devices" (Some l) e s0 with
    | (Ret res, s2) =>
        (match body res with
         | BodyNone => Throw (TypeError "data")
         | BodyPage d => Ret (List.filter (displayName_is X) d)
         | _ => Throw (TypeError "filter")
         end, s2)
    | (Throw x, s2) => (Throw x, s2)
    end.
Proof.
  cbv zeta. unfold getDevicesByName, getDevices, bind. rewrite literal_opts.
  destruct (get _ _ _ _) as [[res|y] s2]; [|done].
  by destruct (body res).
Qed.

Lemma getDevicesByName_via_get (e : Env) (s : State) (X : string) :
  let l := fresh (dom (optss s)) in
  let s0 := reheap (hdrs s)
              (<[l := mkOpts (Some {[ "limit" := VNum 0 ]}) None]> (optss s)) s in
  let r := get "devices" (Some l) e s0 in
  log (snd (getDevicesByName X e s)) = log (snd r) /\
  fst (getDevicesByName X e s)
  = match fst r with
    | Ret res => match body res with
                 | BodyNone => Throw (TypeError "data")
                 | BodyPage d => Ret (List.filter (displayName_is X) d)
                 | _ => Throw (TypeError "filter")
                 end
    | Throw x => Throw x
    end.
Proof.
  cbv zeta. rewrite getDevicesByName_eq. cbv zeta.
  by destruct (get _ _ _ _) as [[res|y] s2].
Qed.

(** C7. [getDevicesByName(X)] fetches the device list with [limit] 0 and no
    other query parameter, and of the list the server returns it keeps, in
    order, exactly the devices whose [displayName] is strictly equal to [X]:
    every device it returns has that name and every device of the list with
    that name is returned. *)
Theorem getDevicesByName_exact (e : Env) (s : State) (X : string) :
  match getToken e s with
  | (Ret tok, s1) =>
      let rq := mkRequest GET (urljoin e (apiUrl (client s)) "devices")
                  {[ "Accept" := "application/json";
                     "Authorization" := "Bearer " +:+ tok ]}
                  (Some {[ "limit" := VNum 0 ]}) None in
      let res := api_server e (log s1) rq in
      api_requests (events_of (getDevicesByName X) e s) = [rq] /\
      forall devices,
        ok res = true -> body res = BodyPage devices ->
        fst (getDevicesByName X e s)
        = Ret (List.filter (displayName_is X) devices) /\
        forall d, d ∈ List.filter (displayName_is X) devices
                  <-> d ∈ devices /\ d !! "displayName" = Some (VStr X)
  | (Throw x, _) => fst (getDevicesByName X e s) = Throw x
  end.
Proof.
  pose proof (getDevicesByName_via_get e s X) as Hvia. cbv zeta in Hvia.
  set (l := fresh (dom (optss s))) in *.
  set (s0 := reheap _ _ s) in *.
  destruct Hvia as [Hvlog Hvfst].
  pose proof (get_run e "devices" (Some l) s0) as Hrun. cbv zeta in Hrun.
  unfold s0 in Hrun at 1. rewrite getToken_reheap in Hrun. fold s0 in Hrun.
  destruct (getToken_log e s) as (evs & Hlog & Hshape).
  destruct (getToken e s) as [[tok|x] s1]; cbn [fst snd] in *.
  - assert (Hsent : request_sent e s0 GET "devices" (Some l) tok
              = mkRequest GET (urljoin e (apiUrl (client s)) "devices")
                  {[ "Accept" := "application/json";
                     "Authorization" := "Bearer " +:+ tok ]}
                  (Some {[ "limit" := VNum 0 ]}) None).
    { apply (literal_opts_sent e {[ "limit" := VNum 0 ]} s GET "devices" tok). }
    rewrite Hsent in Hrun. cbn [log reheap] in Hrun.
    destruct Hrun as (Ho & Hl & _).
    split.
    + unfold events_of. rewrite Hvlog, Hl, Hlog, <- app_assoc, drop_app_length.
      rewrite api_requests_app.
      destruct Hshape as [-> | (rq & rs & ->)]; reflexivity.
    + intros devices Hok Hbody. split; [|apply filter_displayName].
      rewrite Hvfst, Ho, Hok, Hbody. reflexivity.
  - destruct Hrun as (Ho & _). by rewrite Hvfst, Ho.
Qed.

Lemma getDevicesByName_exact_witness :
  fst (getDevicesByName "Flame" devices_env (initial sample_client))
  = Ret [device 1 "Flame"; device 3 "Flame"].
Proof.
  pose proof (getDevicesByName_exact devices_env (initial sample_client) "Flame") as H.
  destruct (getToken devices_env (initial sample_client)) as [[tok|x] s1] eqn:E;
    [|vm_compute in E; discriminate E].
  destruct H as [_ H].
  destruct (H sample_devices eq_refl eq_refl) as [Hr _].
  rewrite Hr. vm_compute. reflexivity.
Defined.

Lemma startDeviceSession_eq (e : Env) (s : State) (deviceId : string) :
  let l := fresh (dom (optss s)) in
  let s0 := reheap (hdrs s)
              (<[l := mkOpts (Some {[ "deviceModelId" := VStr deviceId ]}) None]>
                 (optss s)) s in
  startDeviceSession deviceId e s
  = match post "me/device-sessions" (Some l) e s0 with
    | (Ret res, s2) =>
        (if ok res then
           match body res with
           | BodyNone => Throw (TypeError "id")
           | b => Ret b
           end
         else Throw (Error ("Could not create session for " +:+ deviceId +:+ ". "
                            +:+ res_error_message res)), s2)
    | (Throw x, s2) => (Throw x, s2)
    end.
Proof.
  cbv zeta. unfold startDeviceSession. unfold bind at 1. rewrite literal_opts.
  unfold bind at 1.
  destruct (post _ _ _ _) as [[res|y] s2]; [|done].
  destruct (ok res); [|done]. by destruct (body res).
Qed.

Lemma stopDeviceSession_eq (e : Env) (s : State) (sessionId : string) :
  stopDeviceSession sessionId e s
  = match post ("me/device-sessions/" +:+ sessionId +:+ "/release") None e s with
    | (Ret res, s2) =>
        (if ok res then Ret res
         else Throw (Error ("Could not stop the session properly for " +:+ sessionId
                            +:+ ".  " +:+ res_error_message res)), s2)
    | (Throw x, s2) => (Throw x, s2)
    end.
Proof.
  unfold stopDeviceSession. unfold bind at 1.
  destruct (post _ _ _ _) as [[res|y] s2]; [|done].
  by destruct (ok res).
Qed.

(** C6. On a response that is not a success, [startDeviceSession] and
    [stopDeviceSession] throw an Error whose message ends with the message
    of the server's error; on a success, [startDeviceSession] returns the
    body of the response (when it has one) and [stopDeviceSession] the
    response.  (When the token cannot be obtained, that failure is what both
    throw.) *)
Theorem sessions_on_response (e : Env) (s : State) (deviceId sessionId : string) :
  match fst (getToken e s) with
  | Ret _ =>
      (exists res,
         api_responses (events_of (startDeviceSession deviceId) e s) = [res] /\
         (ok res = false ->
          fst (startDeviceSession deviceId e s)
          = Throw (Error ("Could not create session for " +:+ deviceId +:+ ". "
                          +:+ res_error_message res)) /\
          includes (res_error_message res)
                   ("Could not create session for " +:+ deviceId +:+ ". "
                    +:+ res_error_message res)) /\
         (ok res = true -> body res <> BodyNone ->
          fst (startDeviceSession deviceId e s) = Ret (body res))) /\
      (exists res,
         api_responses (events_of (stopDeviceSession sessionId) e s) = [res] /\
         (ok res = false ->
          fst (stopDeviceSession sessionId e s)
          = Throw (Error ("Could not stop the session properly for " +:+ sessionId
                          +:+ ".  " +:+ res_error_message res)) /\
          includes (res_error_message res)
                   ("Could not stop the session properly for " +:+ sessionId
                    +:+ ".  " +:+ res_error_message res)) /\
         (ok res = true -> fst (stopDeviceSession sessionId e s) = Ret res))
  | Throw x =>
      fst (startDeviceSession deviceId e s) = Throw x /\
      fst (stopDeviceSession sessionId e s) = Throw x
  end.
Proof.
  pose proof (startDeviceSession_eq e s deviceId) as Hstart. cbv zeta in Hstart.
  set (l := fresh (dom (optss s))) in *.
  set (s0 := reheap _ _ s) in *.
  pose proof (post_outcome e s0 "me/device-sessions" (Some l)) as Hp1.
  unfold s0 in Hp1 at 1. rewrite getToken_reheap in Hp1. cbn [fst] in Hp1.
  fold s0 in Hp1.
  pose proof (post_outcome e s ("me/device-sessions/" +:+ sessionId +:+ "/release")
                None) as Hp2.
  assert (Hev1 : events_of (startDeviceSession deviceId) e s
                 = events_of (post "me/device-sessions" (Some l)) e s0).
  { unfold events_of. rewrite Hstart.
    by destruct (post _ _ _ _) as [[res|y] s2]. }
  assert (Hev2 : events_of (stopDeviceSession sessionId) e s
                 = events_of (post ("me/device-sessions/" +:+ sessionId
                                    +:+ "/release") None) e s).
  { unfold events_of. rewrite stopDeviceSession_eq.
    by destruct (post _ None e s) as [[res|y] s2]. }
  rewrite Hev1, Hev2, Hstart, stopDeviceSession_eq.
  destruct (fst (getToken e s)) as [tok|x].
  - destruct Hp1 as (r1 & Hr1 & Ho1). destruct Hp2 as (r2 & Hr2 & Ho2).
    split.
    + exists r1. split; [exact Hr1|].
      destruct (post "me/device-sessions" (Some l) e s0) as [[res|y] s2];
        cbn [fst] in *; [|discriminate].
      injection Ho1 as ->. split.
      * intros ->. split; [reflexivity|].
        rewrite <- !append_assoc. apply includes_suffix.
      * intros -> Hb. by destruct (body r1).
    + exists r2. split; [exact Hr2|].
      destruct (post _ None e s) as [[res|y] s2]; cbn [fst] in *; [|discriminate].
      injection Ho2 as ->. split.
      * intros ->. split; [reflexivity|].
        rewrite <- !append_assoc. apply includes_suffix.
      * by intros ->.
  - destruct Hp1 as (_ & Ho1). destruct Hp2 as (_ & Ho2). split.
    + destruct (post "me/device-sessions" (Some l) e s0) as [[res|y] s2];
        cbn [fst] in *; [discriminate | congruence].
    + destruct (post _ None e s) as [[res|y] s2]; cbn [fst] in *;
        [discriminate | exact Ho2].
Qed.

(** ** The proxy polling loop *)

Lemma getToken_throws (e : Env) (s : State) (x : Exn) :
  fst (getToken e s) = Throw x -> exists tr, x = auth_error tr /\ t_ok tr = false.
Proof.
  rewrite getToken_eq, choose_grant_eq. cbv zeta.
  assert (Hreq : forall p s0,
    fst (request_token p e s0) = Throw x ->
    exists tr, x = auth_error tr /\ t_ok tr = false).
  { intros p s0. rewrite request_token_eq. cbv zeta.
    destruct (t_ok _) eqn:Hok; simpl; [discriminate|].
    intros [= <-]. eauto. }
  destruct (token (client s)) as [tok|]; [|apply Hreq].
  destruct (negb _); [apply Hreq|].
  destruct (num_gt_date _ _); [apply Hreq|].
  destruct (date_gt_num _ _); [discriminate | apply Hreq].
Qed.

Lemma polling_view_app (a b : list Event) :
  polling_view (a ++ b) = (polling_view a ++ polling_view b)%list.
Proof. apply omap_app. Qed.

Lemma getToken_view (e : Env) (s : State) :
  exists evs, log (snd (getToken e s)) = (log s ++ evs)%list /\
              polling_view evs = [].
Proof.
  destruct (getToken_log e s) as (evs & Hlog & Hshape).
  exists evs. split; [exact Hlog|].
  destruct Hshape as [-> | (rq & rs & ->)]; reflexivity.
Qed.

(** One query of the loop: the token step fails, or exactly one response is
    received and decides the outcome. *)
Lemma get_view (e : Env) (s : State) (path : string) (opts : option loc) :
  exists evs,
    log (snd (get path opts e s)) = (log s ++ evs)%list /\
    ((exists tr, t_ok tr = false /\ polling_view evs = [] /\
                 fst (get path opts e s) = Throw (auth_error tr)) \/
     (exists res, polling_view evs = [inl res] /\
                  fst (get path opts e s)
                  = if ok res then Ret res
                    else Throw (Error (error_to_string res)))).
Proof.
  pose proof (get_run e path opts s) as Hrun. cbv zeta in Hrun.
  destruct (getToken_view e s) as (evs & Hlog & Hview).
  pose proof (getToken_throws e s) as Hthrows.
  destruct (getToken e s) as [[tok|x] s1]; cbn [fst snd] in *.
  - destruct Hrun as (Ho & Hl & _). rewrite Hlog in Ho, Hl.
    eexists. split; [rewrite Hl, <- app_assoc; reflexivity|].
    right. eexists. split; [|exact Ho].
    rewrite polling_view_app, Hview. reflexivity.
  - destruct Hrun as (Ho & Hl & _).
    destruct (Hthrows x eq_refl) as (tr & -> & Htr).
    exists evs. split; [by rewrite Hl|].
    left. exists tr. auto.
Qed.

Lemma last_assigned_cons (res0 : option Response) (r : Response)
    (rs : list Response) :
  last_assigned res0 (r :: rs) = last_assigned (Some r) rs.
Proof. unfold last_assigned. rewrite last_cons. by destruct (last rs). Qed.

(** One more iteration in front of a run. *)
Lemma PollRun_step (n : nat) (res0 : option Response) (r : Response)
    (v : list (Response + Z)) (out : Outcome (option Response)) :
  quiet r -> PollRun n (Some r) v out ->
  PollRun (S n) res0 (inl r :: inr 5000 :: v) out.
Proof.
  intros Hq Hrun. destruct Hrun as [rs Hrs Hlen | rs res Hrs Hlen Hok Hb
                                   | rs res Hrs Hlen Hok | rs tr Hrs Hlen Htr].
  - rewrite <- last_assigned_cons with (res0 := res0).
    apply (Poll_exhausted (S n) res0 (r :: rs)); [by constructor | simpl; lia].
  - apply (Poll_found (S n) res0 (r :: rs) res); [by constructor | simpl; lia | done..].
  - apply (Poll_refused (S n) res0 (r :: rs) res); [by constructor | simpl; lia | done].
  - apply (Poll_unauthorized (S n) res0 (r :: rs) tr); [by constructor | simpl; lia | done].
Qed.

Lemma poll_S (e : Env) (type sessionId : string) (n : nat)
    (res0 : option Response) (s : State) :
  poll type sessionId (S n) res0 e s
  = match get (proxy_path e type sessionId) None e s with
    | (Ret r, s1) =>
        if ok r && body_has_length (body r) then (Ret (Some r), s1)
        else poll type sessionId n (Some r) e
               {| client := client s1; ticks := ticks s1;
                  log := log s1 ++ [EvSleep 5000];
                  hdrs := hdrs s1; optss := optss s1 |}
    | (Throw x, s1) => (Throw x, s1)
    end.
Proof.
  cbn [poll]. unfold bind at 1. unfold env at 1. unfold bind at 1.
  destruct (get _ None e s) as [[r|x] s1]; [|reflexivity].
  destruct (ok r && body_has_length (body r)); reflexivity.
Qed.

Lemma poll_run (e : Env) (type sessionId : string) (n : nat) :
  forall (res0 : option Response) (s : State),
  exists evs,
    log (snd (poll type sessionId n res0 e s)) = (log s ++ evs)%list /\
    PollRun n res0 (polling_view evs) (fst (poll type sessionId n res0 e s)).
Proof.
  induction n as [|n IH]; intros res0 s.
  - exists []. split; [simpl; by rewrite app_nil_r|].
    apply (Poll_exhausted 0 res0 []); [constructor | reflexivity].
  - rewrite poll_S.
    destruct (get_view e s (proxy_path e type sessionId) None)
      as (evs1 & Hlog1 & [(tr & Htr & Hv & Ho) | (res & Hv & Ho)]).
    + destruct (get _ None e s) as [[r|x] s1]; cbn [fst snd] in *; [discriminate|].
      injection Ho as ->. exists evs1. split; [exact Hlog1|]. rewrite Hv.
      apply (Poll_unauthorized (S n) res0 [] tr); [constructor | simpl; lia | done].
    + destruct (get _ None e s) as [[r|x] s1]; cbn [fst snd] in *.
      * destruct (ok res) eqn:Hok; [|discriminate]. injection Ho as ->.
        rewrite Hok. cbn [andb].
        destruct (body_has_length (body res)) eqn:Hb.
        -- exists evs1. split; [exact Hlog1|]. rewrite Hv.
           apply (Poll_found (S n) res0 [] res); [constructor | simpl; lia | done..].
        -- match goal with
           | |- context [poll type sessionId n (Some res) e ?s2] =>
               destruct (IH (Some res) s2) as (evs2 & Hlog2 & Hrun2)
           end.
           cbn [log] in Hlog2.
           exists (evs1 ++ EvSleep 5000 :: evs2)%list. split.
           ++ rewrite Hlog2, Hlog1, <- !app_assoc. reflexivity.
           ++ rewrite polling_view_app, Hv. cbn.
              apply PollRun_step; [by split | exact Hrun2].
      * destruct (ok res) eqn:Hok; [discriminate|]. injection Ho as ->.
        exists evs1. split; [exact Hlog1|]. rewrite Hv.
        apply (Poll_refused (S n) res0 [] res); [constructor | simpl; lia | done].
Qed.

Lemma getProxy_eq (e : Env) (s : State) (type sessionId : string) :
  getProxy type sessionId e s
  = match poll type sessionId maxRetries None e s with
    | (Ret None, s1) => (Throw (TypeError "ok"), s1)
    | (Ret (Some res), s1) =>
        (if negb (ok res) then Throw (proxy_timeout type sessionId)
         else match body res with
              | BodyNone => Throw (TypeError "length")
              | BodyList (p :: _) => Ret (Some p)
              | _ => Throw (proxy_timeout type sessionId)
              end, s1)
    | (Throw x, s1) => (Throw x, s1)
    end.
Proof.
  unfold getProxy. unfold bind at 1.
  destruct (poll _ _ _ _ _ _) as [[[res|]|x] s1]; [|reflexivity..].
  unfold bind. destruct (ok res); [|reflexivity]. simpl.
  destruct (body res) as [|[|p l]| |]; reflexivity.
Qed.

Lemma getProxy_run (e : Env) (s : State) (type sessionId : string) :
  ProxyRun type sessionId
           (polling_view (events_of (getProxy type sessionId) e s))
           (fst (getProxy type sessionId e s)).
Proof.
  destruct (poll_run e type sessionId maxRetries None s) as (evs & Hlog & Hrun).
  assert (Hev : events_of (getProxy type sessionId) e s = evs).
  { apply events_of_app. rewrite getProxy_eq, <- Hlog.
    by destruct (poll _ _ _ _ _ _) as [[[res|]|x] s1]. }
  rewrite Hev, getProxy_eq.
  destruct (poll _ _ _ _ _ _) as [out s1]. cbn [fst snd] in *.
  destruct Hrun as [rs Hrs Hlen | rs res Hrs Hlen Hok Hb
                   | rs res Hrs Hlen Hok | rs tr Hrs Hlen Htr].
  - unfold last_assigned.
    destruct (last rs) as [r|] eqn:Hlast.
    + assert (Hq : quiet r).
      { apply (proj1 (Forall_forall quiet rs) Hrs). by apply last_Some_elem_of. }
      destruct Hq as [Hok Hb]. rewrite Hok. cbn [negb fst].
      destruct (body r) as [|[|p l]| |] eqn:Hbody;
        try (by eapply Proxy_timeout; eauto; rewrite Hbody);
        [by eapply Proxy_no_body; eauto | discriminate].
    + apply last_None in Hlast. subst rs. discriminate.
  - rewrite Hok. cbn [negb fst].
    destruct (body res) as [|[|p l]| |] eqn:Hbody; try discriminate.
    by eapply Proxy_found; eauto.
  - by apply Proxy_refused.
  - by apply Proxy_unauthorized.
Qed.

Lemma attempts_app (a b : list (Response + Z)) :
  attempts (a ++ b) = (attempts a ++ attempts b)%list.
Proof. apply omap_app. Qed.

Lemma attempts_rounds (rs : list Response) : attempts (rounds rs) = rs.
Proof.
  induction rs as [|r rs IH]; [reflexivity|].
  cbn. f_equal. exact IH.
Qed.

Lemma api_responses_view (evs : list Event) :
  api_responses evs = attempts (polling_view evs).
Proof.
  induction evs as [|ev evs IH]; [reflexivity|].
  destruct ev; cbn; [exact IH | f_equal; exact IH | exact IH].
Qed.

(** Where a response that is not quiet can stand among the attempts. *)
Lemma quiet_prefix_split (rs : list Response) (res r : Response)
    (before after : list Response) :
  Forall quiet rs -> ~ quiet r ->
  (rs ++ [res])%list = (before ++ r :: after)%list ->
  before = rs /\ r = res /\ after = [].
Proof.
  revert before. induction rs as [|q rs IH]; intros before Hrs Hr Heq.
  - destruct before as [|b before]; simpl in Heq.
    + injection Heq as -> <-. done.
    + injection Heq as _ Heq. by destruct before.
  - destruct before as [|b before]; simpl in Heq.
    + injection Heq as -> _. inversion Hrs. contradiction.
    + injection Heq as -> Heq. inversion Hrs as [|? ? ? Hrs']; subst.
      destruct (IH before Hrs' Hr Heq) as (-> & -> & ->). done.
Qed.

Lemma quiet_all (rs : list Response) (r : Response)
    (before after : list Response) :
  Forall quiet rs -> rs = (before ++ r :: after)%list -> quiet r.
Proof.
  intros Hrs ->. apply Forall_app in Hrs as [_ Hrs]. by inversion Hrs.
Qed.

Lemma timeout_not_refusal (type sessionId : string) (res : Response) :
  proxy_timeout type sessionId <> Error (error_to_string res).
Proof.
  unfold proxy_timeout, error_to_string. intros H. injection H as H.
  destruct (String.eqb _ _); cbn in H; discriminate H.
Qed.

Lemma timeout_not_auth (type sessionId : string) (tr : TokenResponse) :
  proxy_timeout type sessionId <> auth_error tr.
Proof.
  unfold proxy_timeout, auth_error. intros H. injection H as H.
  cbn in H. discriminate H.
Qed.

(** A world in which every grant succeeds and no query ever finds a proxy. *)
Section NeverFound.
Variable e : Env.
Hypothesis grants : forall h rq, t_ok (auth_server e h rq) = true.
Hypothesis nothing : forall h rq,
  ok (api_server e h rq) = true /\ body (api_server e h rq) = BodyList [].

Lemma getToken_succeeds (s : State) : exists tok, fst (getToken e s) = Ret tok.
Proof.
  rewrite getToken_eq, choose_grant_eq. cbv zeta.
  assert (Hreq : forall p s0, exists tok, fst (request_token p e s0) = Ret tok).
  { intros p s0. rewrite request_token_eq. cbv zeta. rewrite grants. eauto. }
  destruct (token (client s)) as [tok|]; [|apply Hreq].
  destruct (negb _); [apply Hreq|].
  destruct (num_gt_date _ _); [apply Hreq|].
  destruct (date_gt_num _ _); [eauto | apply Hreq].
Qed.

Lemma poll_never_found (type sessionId : string) (n : nat) :
  forall (res0 : option Response) (s : State),
  exists evs rs,
    log (snd (poll type sessionId n res0 e s)) = (log s ++ evs)%list /\
    fst (poll type sessionId n res0 e s) = Ret (last_assigned res0 rs) /\
    polling_view evs = rounds rs /\ length rs = n /\
    Forall (fun r => ok r = true /\ body r = BodyList []) rs.
Proof.
  induction n as [|n IH]; intros res0 s.
  - exists [], []. simpl. by rewrite app_nil_r.
  - rewrite poll_S.
    pose proof (get_run e (proxy_path e type sessionId) None s) as Hrun.
    cbv zeta in Hrun.
    destruct (getToken_view e s) as (evs1 & Hlog1 & Hv1).
    destruct (getToken_succeeds s) as [tok Htok].
    destruct (getToken e s) as [[tok'|x] s1]; cbn [fst snd] in *; [|discriminate].
    destruct Hrun as (Ho & Hl & _).
    set (r := api_server e (log s1) _) in *.
    destruct (nothing (log s1)
                (request_sent e s GET (proxy_path e type sessionId) None tok'))
      as [Hok Hbody]. fold r in Hok, Hbody.
    rewrite Hok in Ho.
    destruct (get _ None e s) as [[r'|y] s2]; cbn [fst snd] in *; [|discriminate].
    injection Ho as ->. rewrite Hok, Hbody. cbn [andb body_has_length].
    match goal with
    | |- context [poll type sessionId n (Some r) e ?s3] =>
        destruct (IH (Some r) s3) as (evs2 & rs & Hlog2 & Hout & Hv2 & Hlen & Hall)
    end.
    cbn [log] in Hlog2.
    exists (evs1 ++ EvApi (request_sent e s GET (proxy_path e type sessionId)
                                        None tok') r :: EvSleep 5000 :: evs2)%list,
           (r :: rs).
    split; [rewrite Hlog2, Hl, Hlog1, <- !app_assoc; reflexivity|].
    split; [by rewrite last_assigned_cons|].
    split; [rewrite polling_view_app, Hv1; cbn; do 2 f_equal; exact Hv2|].
    split; [simpl; by rewrite Hlen|].
    by constructor.
Qed.

Lemma getProxy_never_found (s : State) (type sessionId : string) :
  fst (getProxy type sessionId e s) = Throw (proxy_timeout type sessionId) /\
  length (api_responses (events_of (getProxy type sessionId) e s)) = 30%nat /\
  polling_view (events_of (getProxy type sessionId) e s)
  = rounds (api_responses (events_of (getProxy type sessionId) e s)).
Proof.
  destruct (poll_never_found type sessionId maxRetries None s)
    as (evs & rs & Hlog & Hout & Hv & Hlen & Hall).
  assert (Hev : events_of (getProxy type sessionId) e s = evs).
  { apply events_of_app. rewrite getProxy_eq, <- Hlog.
    by destruct (poll _ _ _ _ _ _) as [[[res|]|x] s1]. }
  rewrite Hev, api_responses_view, Hv, attempts_rounds, getProxy_eq.
  split; [|done].
  destruct (poll _ _ _ _ _ _) as [out s1]. cbn [fst snd] in *. subst out.
  unfold last_assigned. destruct (last rs) as [r|] eqn:Hlast.
  - apply last_Some_elem_of in Hlast.
    destruct (proj1 (Forall_forall _ rs) Hall r Hlast) as [Hok Hbody].
    by rewrite Hok, Hbody.
  - apply last_None in Hlast. subst rs. discriminate.
Qed.

End NeverFound.

(** The shape of every run of [getProxy], read off its trace. *)
Lemma getProxy_trace_shape (e : Env) (s : State) (type sessionId : string) :
  let evs := events_of (getProxy type sessionId) e s in
  let tries := api_responses evs in
  let out := fst (getProxy type sessionId e s) in
  (length tries <= 30)%nat /\
  (polling_view evs = rounds tries \/
   exists rs r, tries = (rs ++ [r])%list /\
                polling_view evs = (rounds rs ++ [inl r])%list) /\
  (length tries = 30%nat ->
   Forall (fun r => ok r = true /\ body r = BodyList []) tries ->
   out = Throw (proxy_timeout type sessionId) /\
   polling_view evs = rounds tries) /\
  (forall before r after p l,
     tries = (before ++ r :: after)%list ->
     ok r = true -> body r = BodyList (p :: l) ->
     after = [] /\ out = Ret (Some p) /\
     polling_view evs = (rounds before ++ [inl r])%list).
Proof.
  cbv zeta. rewrite api_responses_view.
  destruct (getProxy_run e s type sessionId)
    as [rs res p l Hrs Hlen Hok Hbody | rs r Hrs Hlen Hlast Hbody
       | rs r Hrs Hlen Hlast Hbody | rs res Hrs Hlen Hok | rs tr Hrs Hlen Htr];
    rewrite ?attempts_app, ?attempts_rounds; cbn [attempts omap app];
    unfold maxRetries in Hlen.
  - (* a proxy was found *)
    split; [rewrite length_app; simpl; lia|].
    split; [right; eauto|]. split.
    + intros _ Hall. apply Forall_app in Hall as [_ Hall].
      inversion Hall as [|? ? [_ Hb] _]; subst. congruence.
    + intros before r after p' l' Heq Hok' Hbody'.
      destruct (quiet_prefix_split rs res r before after Hrs) as (-> & -> & ->);
        [|exact Heq|].
      * intros [_ Hq]. rewrite Hbody' in Hq. discriminate Hq.
      * split; [done|]. split; [congruence | done].
  - (* every query was quiet, the last one had a body *)
    split; [lia|]. split; [by left|]. split; [done|].
    intros before r' after p l Heq Hok' Hbody'.
    destruct (quiet_all rs r' before after Hrs Heq) as [_ Hq].
    rewrite Hbody' in Hq. discriminate Hq.
  - (* every query was quiet, the last one had no body *)
    split; [lia|]. split; [by left|]. split.
    + intros _ Hall. apply last_Some_elem_of in Hlast.
      destruct (proj1 (Forall_forall _ rs) Hall r Hlast) as [_ Hb]. congruence.
    + intros before r' after p l Heq Hok' Hbody'.
      destruct (quiet_all rs r' before after Hrs Heq) as [_ Hq].
      rewrite Hbody' in Hq. discriminate Hq.
  - (* a query was refused *)
    split; [rewrite length_app; simpl; lia|].
    split; [right; eauto|]. split.
    + intros _ Hall. apply Forall_app in Hall as [_ Hall].
      inversion Hall as [|? ? [Hok' _] _]; subst. congruence.
    + intros before r after p' l' Heq Hok' Hbody'.
      destruct (quiet_prefix_split rs res r before after Hrs) as (-> & -> & ->);
        [|exact Heq|congruence].
      intros [_ Hq]. rewrite Hbody' in Hq. discriminate Hq.
  - (* the token could not be obtained *)
    split; [lia|]. split; [by left|]. split; [lia|].
    intros before r' after p l Heq Hok' Hbody'.
    destruct (quiet_all rs r' before after Hrs Heq) as [_ Hq].
    rewrite Hbody' in Hq. discriminate Hq.
Qed.

(** C3. [getProxy] makes at most 30 queries and sleeps 5 seconds after each
    one that brought no proxy, hence between any two of them.  When it has
    made 30 queries and each returned an empty list, it throws the timeout
    error.  A query that returns a nonempty list is the last thing it does:
    it sleeps no more, queries no more and returns the first element of
    that list.  And in a world where every grant succeeds and every query
    returns an empty list, it does make the 30 queries and then throws the
    timeout error. *)
Theorem getProxy_polling (e : Env) (s : State) (type sessionId : string) :
  let evs := events_of (getProxy type sessionId) e s in
  let tries := api_responses evs in
  let out := fst (getProxy type sessionId e s) in
  (length tries <= 30)%nat /\
  (polling_view evs = rounds tries \/
   exists rs r, tries = (rs ++ [r])%list /\
                polling_view evs = (rounds rs ++ [inl r])%list) /\
  (length tries = 30%nat ->
   Forall (fun r => ok r = true /\ body r = BodyList []) tries ->
   out = Throw (proxy_timeout type sessionId) /\
   polling_view evs = rounds tries) /\
  (forall before r after p l,
     tries = (before ++ r :: after)%list ->
     ok r = true -> body r = BodyList (p :: l) ->
     after = [] /\ out = Ret (Some p) /\
     polling_view evs = (rounds before ++ [inl r])%list) /\
  ((forall h rq, t_ok (auth_server e h rq) = true) ->
   (forall h rq, ok (api_server e h rq) = true /\
                 body (api_server e h rq) = BodyList []) ->
   out = Throw (proxy_timeout type sessionId) /\ length tries = 30%nat).
Proof.
  cbv zeta.
  destruct (getProxy_trace_shape e s type sessionId) as (H1 & H2 & H3 & H4).
  repeat (split; [assumption|]).
  intros Hgrants Hnothing.
  destruct (getProxy_never_found e Hgrants Hnothing s type sessionId)
    as (Hout & Hlen & _).
  by split.
Qed.


Lemma getProxy_polling_witness :
  fst (getProxy "adb" "12" empty_env (initial sample_client))
  = Throw (proxy_timeout "adb" "12") /\
  fst (getProxy "adb" "12" third_time_env (initial sample_client))
  = Ret (Some sample_proxy).
Proof.
  split.
  - destruct (getProxy_polling empty_env (initial sample_client) "adb" "12")
      as (_ & _ & Hall & _).
    assert (Htries : api_responses (events_of (getProxy "adb" "12") empty_env
                                              (initial sample_client))
                     = replicate 30 (mkResponse true "" (BodyList []))).
    { vm_compute. reflexivity. }
    apply Hall; rewrite Htries; [reflexivity|].
    apply Forall_replicate. split; reflexivity.
  - destruct (getProxy_polling third_time_env (initial sample_client) "adb" "12")
      as (_ & _ & _ & Hfound & _).
    apply (Hfound (replicate 2 (mkResponse true "" (BodyList [])))
                  (mkResponse true "" (BodyList [sample_proxy])) [] sample_proxy []);
      [vm_compute; reflexivity | reflexivity | reflexivity].
Defined.


Lemma sessions_on_response_witness :
  fst (startDeviceSession "42" refusing_env (initial sample_client))
  = Throw (Error "Could not create session for 42. Not Found") /\
  fst (startDeviceSession "42" session_env (initial sample_client))
  = Ret (BodyObject {[ "id" := VNum 12 ]}).
Proof.
  split.
  - pose proof (sessions_on_response refusing_env (initial sample_client) "42" "12")
      as H.
    destruct (fst (getToken refusing_env (initial sample_client))) eqn:E;
      [|vm_compute in E; discriminate E].
    destruct H as [(res & Hres & Hfail & _) _].
    vm_compute in Hres. injection Hres as <-.
    exact (proj1 (Hfail eq_refl)).
  - pose proof (sessions_on_response session_env (initial sample_client) "42" "12")
      as H.
    destruct (fst (getToken session_env (initial sample_client))) eqn:E;
      [|vm_compute in E; discriminate E].
    destruct H as [(res & Hres & _ & Hok) _].
    vm_compute in Hres. injection Hres as <-.
    apply Hok; [reflexivity | discriminate].
Defined.

Lemma request_carries_token_witness :
  exists rq,
    api_requests (events_of (__request GET "devices" (Some 0%nat)) calm_env caller_store)
    = [rq] /\
    rq_headers rq !! "Authorization" = Some "Bearer fresh" /\
    rq_headers rq !! "Accept" = Some "text/plain" /\
    rq_headers rq !! "x-user" = Some "foo".
Proof.
  pose proof (request_carries_token calm_env caller_store GET "devices" (Some 0%nat))
    as H.
  destruct (fst (getToken calm_env caller_store)) as [tok|x] eqn:E;
    [|vm_compute in E; discriminate E].
  vm_compute in E. injection E as <-.
  destruct H as (rq & Hone & Hauth & Haccept & Hother).
  exists rq. split; [exact Hone|]. split; [exact Hauth|]. split; [exact Haccept|].
  rewrite Hother; [reflexivity | discriminate | discriminate].
Defined.

(** ** Labels, label groups and projects *)

Lemma find_first_match {A} (f : A -> bool) (l : list A) :
  first_match f l (List.find f l).
Proof.
  induction l as [|a l IH]; simpl; [constructor|].
  destruct (f a) eqn:Ha.
  - exists [], l. by repeat split.
  - unfold first_match in *. destruct (List.find f l) as [x|].
    + destruct IH as (before & after & -> & Hx & Hb).
      exists (a :: before), after. repeat split; [done|]. by constructor.
    + by constructor.
Qed.

(** A method that makes the literal [{ payload: p }], calls [get] with it and
    then only works on the response: its trace and its outcome. *)
Lemma literal_get_method {A} (e : Env) (s : State) (path : string) (p : Obj)
    (m : M A) (k : Response -> Outcome A) :
  m e s
  = match get path (Some (fresh (dom (optss s)))) e
            (reheap (hdrs s)
               (<[fresh (dom (optss s)) := mkOpts (Some p) None]> (optss s)) s) with
    | (Ret res, s2) => (k res, s2)
    | (Throw x, s2) => (Throw x, s2)
    end ->
  match getToken e s with
  | (Ret tok, s1) =>
      let rq := literal_get e s path tok p in
      let res := api_server e (log s1) rq in
      events_of m e s = (events_of getToken e s ++ [EvApi rq res])%list /\
      api_requests (events_of m e s) = [rq] /\
      fst (m e s) = (if ok res then k res else Throw (Error (error_to_string res)))
  | (Throw x, _) =>
      events_of m e s = events_of getToken e s /\
      api_requests (events_of m e s) = [] /\
      fst (m e s) = Throw x
  end.
Proof.
  intros Hm.
  set (l := fresh (dom (optss s))) in *.
  set (s0 := reheap _ _ s) in *.
  pose proof (get_run e path (Some l) s0) as Hrun. cbv zeta in Hrun.
  unfold s0 in Hrun at 1. rewrite getToken_reheap in Hrun. fold s0 in Hrun.
  destruct (getToken_log e s) as (evs & Hlog & Hshape).
  pose proof (getToken_no_api e s) as [Hnone _].
  rewrite (events_of_app e getToken s evs Hlog) in *.
  destruct (getToken e s) as [[tok|x] s1]; cbn [fst snd] in *.
  - assert (Hsent : request_sent e s0 GET path (Some l) tok
                    = literal_get e s path tok p).
    { apply (literal_opts_sent e p s GET path tok). }
    rewrite Hsent in Hrun. cbn [log reheap] in Hrun.
    destruct Hrun as (Ho & Hl & _).
    assert (Hev : events_of m e s
                  = (evs ++ [EvApi (literal_get e s path tok p)
                               (api_server e (log s1) (literal_get e s path tok p))])%list).
    { apply events_of_app. rewrite Hm.
      destruct (get path (Some l) e s0) as [[r|y] s2]; cbn [fst snd] in *;
        rewrite Hl, Hlog, <- app_assoc; reflexivity. }
    split; [exact Hev|]. split.
    + rewrite Hev, api_requests_app, Hnone. reflexivity.
    + rewrite Hm.
      destruct (get path (Some l) e s0) as [[r|y] s2]; cbn [fst snd] in *.
      * destruct (ok _); [by injection Ho as -> | discriminate].
      * destruct (ok _); [discriminate | by injection Ho as ->].
  - destruct Hrun as (Ho & Hl & _). cbn [log reheap] in Hl.
    assert (Hev : events_of m e s = evs).
    { apply events_of_app. rewrite Hm.
      destruct (get path (Some l) e s0) as [[r|y] s2]; cbn [fst snd] in *;
        by rewrite Hl. }
    split; [exact Hev|]. split; [by rewrite Hev|].
    rewrite Hm.
    destruct (get path (Some l) e s0) as [[r|y] s2]; cbn [fst snd] in *;
      [discriminate | by injection Ho as ->].
Qed.

Ltac via_get :=
  intros; unfold bind; rewrite literal_opts;
  match goal with
  | |- context [get ?path ?o ?e ?s] =>
      destruct (get path o e s) as [[res|y] s2]; [|reflexivity];
      destruct (ok res); [|reflexivity];
      destruct (body res); reflexivity
  end.

Lemma getDevicesWithLabel_via (e : Env) (s : State) (lbl : Obj) :
  getDevicesWithLabel (Some lbl) e s
  = match get "devices" (Some (fresh (dom (optss s)))) e
            (reheap (hdrs s)
               (<[fresh (dom (optss s))
                  := mkOpts (Some {[ "label_id[]" := prop lbl "id";
                                     "limit" := VNum 0 ]}) None]> (optss s)) s) with
    | (Ret res, s2) =>
        (if ok res then
           match body res with
           | BodyNone => Throw (TypeError "data")
           | BodyPage d => Ret (Some d)
           | _ => Ret None
           end
         else Throw (Error ("Request for devices with label "
                            +:+ template (prop lbl "displayName")
                            +:+ " could not be completed. "
                            +:+ res_error_message res)), s2)
    | (Throw x, s2) => (Throw x, s2)
    end.
Proof. unfold getDevicesWithLabel. via_get. Qed.

(** X1. [getDevicesWithLabel] returns [undefined] without contacting any
    server when the label is falsy.  Otherwise it sends one GET devices whose
    query is the label's id under [label_id[]] and [limit] 0, returns the
    [data] array of a success response as it is, and on a response that is
    not a success throws the error of [get]. *)
Theorem getDevicesWithLabel_by_id (e : Env) (s : State) (lbl : Obj) :
  getDevicesWithLabel None e s = (Ret None, s) /\
  match getToken e s with
  | (Ret tok, s1) =>
      let rq := literal_get e s "devices" tok
                  {[ "label_id[]" := prop lbl "id"; "limit" := VNum 0 ]} in
      let res := api_server e (log s1) rq in
      api_requests (events_of (getDevicesWithLabel (Some lbl)) e s) = [rq] /\
      (ok res = false ->
       fst (getDevicesWithLabel (Some lbl) e s)
       = Throw (Error (error_to_string res))) /\
      (forall devices, ok res = true -> body res = BodyPage devices ->
       fst (getDevicesWithLabel (Some lbl) e s) = Ret (Some devices))
  | (Throw x, _) =>
      api_requests (events_of (getDevicesWithLabel (Some lbl)) e s) = [] /\
      fst (getDevicesWithLabel (Some lbl) e s) = Throw x
  end.
Proof.
  split; [reflexivity|].
  pose proof (literal_get_method e s "devices" _ _ _
                (getDevicesWithLabel_via e s lbl)) as H.
  destruct (getToken e s) as [[tok|x] s1]; cbv zeta in *.
  - destruct H as (_ & Hrq & Hout). split; [exact Hrq|]. split.
    + intros Hok. by rewrite Hout, Hok.
    + intros devices Hok Hbody. by rewrite Hout, Hok, Hbody.
  - destruct H as (_ & Hrq & Hout). by split.
Qed.

Lemma getLabelGroup_via (e : Env) (s : State) (name : string) :
  truthy (Some name) = true ->
  getLabelGroup (Some name) e s
  = match get "label-groups" (Some (fresh (dom (optss s)))) e
            (reheap (hdrs s)
               (<[fresh (dom (optss s))
                  := mkOpts (Some {[ "search" := VStr name ]}) None]> (optss s)) s) with
    | (Ret res, s2) =>
        (if ok res then
           match body res with
           | BodyNone => Throw (TypeError "data")
           | BodyPage d => Ret (List.find (displayName_is name) d)
           | _ => Throw (TypeError "find")
           end
         else Throw (Error ("Could not complete request to find label group. "
                            +:+ res_error_message res)), s2)
    | (Throw x, s2) => (Throw x, s2)
    end.
Proof.
  intros Ht. unfold getLabelGroup, find_displayName. rewrite Ht. cbn [negb].
  via_get.
Qed.

(** X2. [getLabelGroup] returns [undefined] without contacting any server
    when the name is missing or empty.  Otherwise it sends one GET
    label-groups with the name as [search] and, of the groups a success
    response lists, returns the first whose [displayName] is strictly equal
    to the name, [undefined] when there is none; on a response that is not a
    success it throws the error of [get]. *)
Theorem getLabelGroup_first_exact (e : Env) (s : State) (name : string) :
  getLabelGroup None e s = (Ret None, s) /\
  getLabelGroup (Some "") e s = (Ret None, s) /\
  (name <> "" ->
   match getToken e s with
   | (Ret tok, s1) =>
       let rq := literal_get e s "label-groups" tok {[ "search" := VStr name ]} in
       let res := api_server e (log s1) rq in
       api_requests (events_of (getLabelGroup (Some name)) e s) = [rq] /\
       (ok res = false ->
        fst (getLabelGroup (Some name) e s) = Throw (Error (error_to_string res))) /\
       (forall groups, ok res = true -> body res = BodyPage groups ->
        exists found,
          fst (getLabelGroup (Some name) e s) = Ret found /\
          first_match (fun g => bool_decide (g !! "displayName" = Some (VStr name)))
                      groups found)
   | (Throw x, _) =>
       api_requests (events_of (getLabelGroup (Some name)) e s) = [] /\
       fst (getLabelGroup (Some name) e s) = Throw x
   end).
Proof.
  split; [reflexivity|]. split; [reflexivity|]. intros Hname.
  assert (Ht : truthy (Some name) = true).
  { simpl. by destruct (String.eqb_spec name ""). }
  pose proof (literal_get_method e s "label-groups" _ _ _
                (getLabelGroup_via e s name Ht)) as H.
  destruct (getToken e s) as [[tok|x] s1]; cbv zeta in *.
  - destruct H as (_ & Hrq & Hout). split; [exact Hrq|]. split.
    + intros Hok. by rewrite Hout, Hok.
    + intros groups Hok Hbody. eexists. split.
      * rewrite Hout, Hok, Hbody. reflexivity.
      * apply (find_first_match (displayName_is name)).
  - destruct H as (_ & Hrq & Hout). by split.
Qed.

Lemma getLabelInGroup_via (e : Env) (s : State) (name : string) (group : Obj) :
  truthy (Some name) = true ->
  getLabelInGroup (Some name) (Some group) e s
  = match get ("label-groups/" +:+ template (prop group "id") +:+ "/labels")
            (Some (fresh (dom (optss s)))) e
            (reheap (hdrs s)
               (<[fresh (dom (optss s))
                  := mkOpts (Some {[ "search" := VStr name ]}) None]> (optss s)) s) with
    | (Ret res, s2) =>
        (if ok res then
           match body res with
           | BodyNone => Throw (TypeError "data")
           | BodyPage d => Ret (List.find (displayName_is name) d)
           | _ => Throw (TypeError "find")
           end
         else Throw (Error ("Could not retrieve label. Error: "
                            +:+ res_error_message res)), s2)
    | (Throw x, s2) => (Throw x, s2)
    end.
Proof.
  intros Ht. unfold getLabelInGroup, find_displayName. rewrite Ht. cbn [negb].
  via_get.
Qed.


Lemma getProjects_via (e : Env) (s : State) (limit : JVal) :
  getProjects limit e s
  = match get "me/projects" (Some (fresh (dom (optss s)))) e
            (reheap (hdrs s)
               (<[fresh (dom (optss s))
                  := mkOpts (Some {[ "limit" := VNum (limit_or_zero limit) ]}) None]>
                  (optss s)) s) with
    | (Ret res, s2) =>
        (if ok res then
           match body res with
           | BodyNone => Throw (TypeError "data")
           | BodyPage d => Ret (map NewProject d)
           | _ => Throw (TypeError "length")
           end
         else Throw (Error "Could not retrieve projects."), s2)
    | (Throw x, s2) => (Throw x, s2)
    end.
Proof.
  unfold getProjects. intros; unfold bind; rewrite literal_opts.
  destruct (get _ _ _ _) as [[res|y] s2]; [|reflexivity].
  destruct (ok res); [|reflexivity].
  destruct (body res) as [| |[|p ps]|]; reflexivity.
Qed.

(** X4. [getProjects] sends one GET me/projects whose query is [limit]: the
    argument when it is a number, 0 for anything else.  From a success
    response it returns one Project per record of [data], in the same order
    (none for an empty [data]); on a response that is not a success it
    throws the error of [get]. *)
Theorem getProjects_wraps_each (e : Env) (s : State) (limit : JVal) :
  match getToken e s with
  | (Ret tok, s1) =>
      let rq := literal_get e s "me/projects" tok
                  {[ "limit" := VNum (match limit with VNum n => n | _ => 0 end) ]} in
      let res := api_server e (log s1) rq in
      api_requests (events_of (getProjects limit) e s) = [rq] /\
      (ok res = false ->
       fst (getProjects limit e s) = Throw (Error (error_to_string res))) /\
      (forall records, ok res = true -> body res = BodyPage records ->
       exists projects,
         fst (getProjects limit e s) = Ret projects /\
         length projects = length records /\
         forall i record, records !! i = Some record ->
                          projects !! i = Some (NewProject record))
  | (Throw x, _) =>
      api_requests (events_of (getProjects limit) e s) = [] /\
      fst (getProjects limit e s) = Throw x
  end.
Proof.
  pose proof (literal_get_method e s "me/projects" _ _ _
                (getProjects_via e s limit)) as H.
  unfold limit_or_zero in H.
  destruct (getToken e s) as [[tok|x] s1]; cbv zeta in *.
  - destruct H as (_ & Hrq & Hout). split; [exact Hrq|]. split.
    + intros Hok. by rewrite Hout, Hok.
    + intros records Hok Hbody. eexists. split.
      * rewrite Hout, Hok, Hbody. reflexivity.
      * split; [apply length_map|].
        intros i record Hi. by rewrite list_lookup_fmap, Hi.
  - destruct H as (_ & Hrq & Hout). by split.
Qed.

Lemma getProject_via (e : Env) (s : State) (name : string) :
  truthy (Some name) = true ->
  getProject (Some name) e s
  = match get "me/projects" (Some (fresh (dom (optss s)))) e
            (reheap (hdrs s)
               (<[fresh (dom (optss s))
                  := mkOpts (Some {[ "search" := VStr name ]}) None]> (optss s)) s) with
    | (Ret res, s2) =>
        (if ok res then
           match body res with
           | BodyNone => Throw (TypeError "data")
           | BodyPage d => Ret (NewProject <$> List.find (name_is name) d)
           | _ => Throw (TypeError "find")
           end
         else Throw (Error "Could not retrieve projects."), s2)
    | (Throw x, s2) => (Throw x, s2)
    end.
Proof.
  intros Ht. unfold getProject. rewrite Ht. cbn [negb].
  intros; unfold bind; rewrite literal_opts.
  destruct (get _ _ _ _) as [[res|y] s2]; [|reflexivity].
  destruct (ok res); [|reflexivity].
  destruct (body res) as [| |d|]; try reflexivity.
  simpl. by destruct (List.find _ d).
Qed.

(** X5. [getProject] returns [undefined] without contacting any server when
    the name is missing or empty.  Otherwise it sends one GET me/projects
    with the name as [search] and returns a Project around the first record
    whose [name] is strictly equal to the name; when no record has exactly
    that name it returns [undefined], whatever the server listed.  On a
    response that is not a success it throws the error of [get]. *)
Theorem getProject_first_exact (e : Env) (s : State) (name : string) :
  getProject None e s = (Ret None, s) /\
  getProject (Some "") e s = (Ret None, s) /\
  (name <> "" ->
   match getToken e s with
   | (Ret tok, s1) =>
       let rq := literal_get e s "me/projects" tok {[ "search" := VStr name ]} in
       let res := api_server e (log s1) rq in
       api_requests (events_of (getProject (Some name)) e s) = [rq] /\
       (ok res = false ->
        fst (getProject (Some name) e s) = Throw (Error (error_to_string res))) /\
       (forall records, ok res = true -> body res = BodyPage records ->
        exists found,
          fst (getProject (Some name) e s) = Ret (NewProject <$> found) /\
          first_match (fun p => bool_decide (p !! "name" = Some (VStr name)))
                      records found)
   | (Throw x, _) =>
       api_requests (events_of (getProject (Some name)) e s) = [] /\
       fst (getProject (Some name) e s) = Throw x
   end).
Proof.
  split; [reflexivity|]. split; [reflexivity|]. intros Hname.
  assert (Ht : truthy (Some name) = true).
  { simpl. by destruct (String.eqb_spec name ""). }
  pose proof (literal_get_method e s "me/projects" _ _ _
                (getProject_via e s name Ht)) as H.
  destruct (getToken e s) as [[tok|x] s1]; cbv zeta in *.
  - destruct H as (_ & Hrq & Hout). split; [exact Hrq|]. split.
    + intros Hok. by rewrite Hout, Hok.
    + intros records Hok Hbody. eexists. split.
      * rewrite Hout, Hok, Hbody. reflexivity.
      * apply (find_first_match (name_is name)).
  - destruct H as (_ & Hrq & Hout). by split.
Qed.

(** The three ways such a method can end. *)
Lemma literal_get_outcome_cases {A} (e : Env) (s : State) (path : string)
    (p : Obj) (m : M A) (k : Response -> Outcome A) :
  m e s
  = match get path (Some (fresh (dom (optss s)))) e
            (reheap (hdrs s)
               (<[fresh (dom (optss s)) := mkOpts (Some p) None]> (optss s)) s) with
    | (Ret res, s2) => (k res, s2)
    | (Throw x, s2) => (Throw x, s2)
    end ->
  (exists tr, fst (m e s) = Throw (auth_error tr)) \/
  (exists res, ok res = false /\ fst (m e s) = Throw (Error (error_to_string res))) \/
  (exists res, ok res = true /\ fst (m e s) = k res).
Proof.
  intros Hm. pose proof (literal_get_method e s path p m k Hm) as H.
  pose proof (getToken_throws e s) as Hthrows.
  destruct (getToken e s) as [[tok|x] s1]; cbv zeta in *; cbn [fst] in *.
  - destruct H as (_ & _ & Hout). destruct (ok _) eqn:Hok; eauto.
  - destruct H as (_ & _ & Hout).
    destruct (Hthrows x eq_refl) as (tr & -> & _). eauto.
Qed.

Lemma refusal_starts_with_E (res : Response) :
  exists rest, error_to_string res = String "E"%char rest.
Proof. unfold error_to_string. destruct (String.eqb _ _); cbn; eauto. Qed.

(** X6. The messages the resource methods build for a response that is not
    a success are never thrown: [get] has thrown its own error before the
    method tests [res.ok].  Whatever the server answers,
    [getDevicesWithLabel] never throws "Request for devices with label ...",
    [getLabelGroup] never "Could not complete request to find label group.
    ...", [getLabelInGroup] never "Could not retrieve label. Error: ...",
    and [getProjects] and [getProject] never "Could not retrieve
    projects.". *)
Theorem contextual_errors_unreachable (e : Env) (s : State) :
  (forall label rest,
     fst (getDevicesWithLabel label e s)
     <> Throw (Error ("Request for devices with label " +:+ rest))) /\
  (forall name rest,
     fst (getLabelGroup name e s)
     <> Throw (Error ("Could not complete request to find label group. " +:+ rest))) /\
  (forall name group rest,
     fst (getLabelInGroup name group e s)
     <> Throw (Error ("Could not retrieve label. Error: " +:+ rest))) /\
  (forall limit,
     fst (getProjects limit e s) <> Throw (Error "Could not retrieve projects.")) /\
  (forall name,
     fst (getProject name e s) <> Throw (Error "Could not retrieve projects.")).
Proof.
  assert (Hcases : forall {A} (out : Outcome A) (ctx : string) (alive : Response -> Outcome A),
    (forall tr, auth_error tr <> Error ctx) ->
    (forall rest, String "E"%char rest <> ctx) ->
    (forall res, alive res <> Throw (Error ctx)) ->
    ((exists tr, out = Throw (auth_error tr)) \/
     (exists res, ok res = false /\ out = Throw (Error (error_to_string res))) \/
     (exists res, ok res = true /\ out = alive res)) ->
    out <> Throw (Error ctx)).
  { intros A out ctx alive Hauth HE Halive
           [(tr & ->) | [(res & _ & ->) | (res & _ & ->)]].
    - intros H. apply (Hauth tr). congruence.
    - destruct (refusal_starts_with_E res) as [rest ->].
      intros H. apply (HE rest). congruence.
    - apply Halive. }
  split; [|split; [|split; [|split]]].
  - intros [lbl|] rest; [|discriminate].
    pose proof (literal_get_outcome_cases e s _ _ _ _
                  (getDevicesWithLabel_via e s lbl)) as H.
    apply (Hcases _ _ _ (fun res => match body res with
                                    | BodyNone => Throw (TypeError "data")
                                    | BodyPage d => Ret (Some d)
                                    | _ => Ret None
                                    end)).
    + intros tr. unfold auth_error. cbn. discriminate.
    + intros r. cbn. discriminate.
    + intros res. destruct (body res); discriminate.
    + destruct H as [H | [(res & Hok & H) | (res & Hok & H)]]; eauto.
      right; right. exists res. by rewrite H, Hok.
  - intros [name|] rest; [|discriminate].
    destruct (String.eqb_spec name "") as [-> | Hne]; [discriminate|].
    assert (Ht : truthy (Some name) = true).
    { simpl. by destruct (String.eqb_spec name ""). }
    pose proof (literal_get_outcome_cases e s _ _ _ _
                  (getLabelGroup_via e s name Ht)) as H.
    apply (Hcases _ _ _ (fun res => match body res with
                                    | BodyNone => Throw (TypeError "data")
                                    | BodyPage d => Ret (List.find (displayName_is name) d)
                                    | _ => Throw (TypeError "find")
                                    end)).
    + intros tr. unfold auth_error. cbn. discriminate.
    + intros r. cbn. discriminate.
    + intros res. destruct (body res); discriminate.
    + destruct H as [H | [(res & Hok & H) | (res & Hok & H)]]; eauto.
      right; right. exists res. by rewrite H, Hok.
  - intros [name|] [group|] rest; try discriminate.
    destruct (String.eqb_spec name "") as [-> | Hne]; [discriminate|].
    assert (Ht : truthy (Some name) = true).
    { simpl. by destruct (String.eqb_spec name ""). }
    pose proof (literal_get_outcome_cases e s _ _ _ _
                  (getLabelInGroup_via e s name group Ht)) as H.
    apply (Hcases _ _ _ (fun res => match body res with
                                    | BodyNone => Throw (TypeError "data")
                                    | BodyPage d => Ret (List.find (displayName_is name) d)
                                    | _ => Throw (TypeError "find")
                                    end)).
    + intros tr. unfold auth_error. cbn. discriminate.
    + intros r. cbn. discriminate.
    + intros res. destruct (body res); discriminate.
    + destruct H as [H | [(res & Hok & H) | (res & Hok & H)]]; eauto.
      right; right. exists res. by rewrite H, Hok.
  - intros limit.
    pose proof (literal_get_outcome_cases e s _ _ _ _
                  (getProjects_via e s limit)) as H.
    apply (Hcases _ _ _ (fun res => match body res with
                                    | BodyNone => Throw (TypeError "data")
                                    | BodyPage d => Ret (map NewProject d)
                                    | _ => Throw (TypeError "length")
                                    end)).
    + intros tr. unfold auth_error. cbn. discriminate.
    + intros r. cbn. discriminate.
    + intros res. destruct (body res); discriminate.
    + destruct H as [H | [(res & Hok & H) | (res & Hok & H)]]; eauto.
      right; right. exists res. by rewrite H, Hok.
  - intros [name|]; [|discriminate].
    destruct (String.eqb_spec name "") as [-> | Hne]; [discriminate|].
    assert (Ht : truthy (Some name) = true).
    { simpl. by destruct (String.eqb_spec name ""). }
    pose proof (literal_get_outcome_cases e s _ _ _ _
                  (getProject_via e s name Ht)) as H.
    apply (Hcases _ _ _ (fun res => match body res with
                                    | BodyNone => Throw (TypeError "data")
                                    | BodyPage d => Ret (NewProject <$> List.find (name_is name) d)
                                    | _ => Throw (TypeError "find")
                                    end)).
    + intros tr. unfold auth_error. cbn. discriminate.
    + intros r. cbn. discriminate.
    + intros res. destruct (body res); discriminate.
    + destruct H as [H | [(res & Hok & H) | (res & Hok & H)]]; eauto.
      right; right. exists res. by rewrite H, Hok.
Qed.

(** ** More on the token manager *)

(** A call of [getToken] is a cache hit or one exchange with the OAuth
    endpoint, after at most two readings of the clock. *)
Lemma getToken_cases (e : Env) (s : State) :
  (exists tok, token (client s) = Some tok /\ getToken e s = (Ret tok, advance 2 s)) \/
  (exists p k, (k <= 2)%nat /\ getToken e s = request_token p e (advance k s)).
Proof.
  rewrite getToken_eq, choose_grant_eq. cbv zeta.
  assert (H0 : forall p, request_token p e s = request_token p e (advance 0 s)).
  { intros p. by destruct s. }
  destruct (token (client s)) as [tok|].
  - destruct (negb _); [right; exists (password_grant (client s)), 0%nat; auto|].
    destruct (num_gt_date _ _);
      [right; exists (password_grant (client s)), 1%nat; auto|].
    destruct (date_gt_num _ _); [left; eauto|].
    right. exists (refresh_grant (client s)), 2%nat. auto.
  - right. exists (password_grant (client s)), 0%nat. auto.
Qed.

(** X7. When the OAuth endpoint refuses, [getToken] throws "Could not
    retrieve token. Error Reponse: " followed by the server's error
    description and leaves the client as it was: the cached token, refresh
    token and expiration are not touched.  And [getToken] throws in no
    other case. *)
Theorem getToken_refused_keeps_cache (e : Env) (s : State) :
  (forall rq tr,
     events_of getToken e s = [EvToken rq tr] -> t_ok tr = false ->
     fst (getToken e s)
     = Throw (Error ("Could not retrieve token. Error Reponse: "
                     +:+ error_description tr)) /\
     client (snd (getToken e s)) = client s) /\
  (forall x,
     fst (getToken e s) = Throw x ->
     exists rq tr,
       events_of getToken e s = [EvToken rq tr] /\ t_ok tr = false /\
       x = Error ("Could not retrieve token. Error Reponse: "
                  +:+ error_description tr) /\
       client (snd (getToken e s)) = client s).
Proof.
  destruct (getToken_cases e s) as [(tok & Htok & Hc) | (p & k & _ & Hr)].
  - split.
    + intros rq tr Hev. exfalso.
      assert (Hnone : events_of getToken e s = []).
      { apply events_of_app. rewrite Hc. simpl. by rewrite app_nil_r. }
      rewrite Hnone in Hev. discriminate.
    + intros x Hx. rewrite Hc in Hx. discriminate.
  - assert (Hev : events_of getToken e s
                  = [EvToken (token_request e (client s) p)
                             (auth_server e (log s) (token_request e (client s) p))]).
    { rewrite (events_of_moved e _ _ s (advance k s) Hr eq_refl).
      exact (request_token_events e p (advance k s)). }
    rewrite Hev, Hr, request_token_eq. cbv zeta. cbn [client log advance].
    split.
    + intros rq tr [= <- <-] Hok. rewrite Hok. by split.
    + intros x. destruct (t_ok _) eqn:Hok; cbn [fst snd]; [discriminate|].
      intros [= <-]. eauto 10.
Qed.

(** X8. When the OAuth endpoint grants, [getToken] returns the access token
    and the client then holds it together with the refresh token of the
    response; the expiration is the reading of the clock taken after the
    response plus the lifetime in seconds times 1000. *)
Theorem getToken_grant_is_cached (e : Env) (s : State) (rq : Request)
    (tr : TokenResponse) :
  events_of getToken e s = [EvToken rq tr] -> t_ok tr = true ->
  let s' := snd (getToken e s) in
  fst (getToken e s) = Ret (access_token tr) /\
  token (client s') = Some (access_token tr) /\
  refreshToken (client s') = Some (refresh_token tr) /\
  exists k, ticks s' = S k /\
            tokenExpiration (client s')
            = new_Date (clock e k + expires_in tr * 1000).
Proof.
  intros Hev Hok. cbv zeta.
  destruct (getToken_cases e s) as [(tok & Htok & Hc) | (p & k & _ & Hr)].
  - exfalso.
    assert (Hnone : events_of getToken e s = []).
    { apply events_of_app. rewrite Hc. simpl. by rewrite app_nil_r. }
    rewrite Hnone in Hev. discriminate.
  - assert (Hev' : events_of getToken e s
                   = [EvToken (token_request e (client s) p)
                              (auth_server e (log s) (token_request e (client s) p))]).
    { rewrite (events_of_moved e _ _ s (advance k s) Hr eq_refl).
      exact (request_token_events e p (advance k s)). }
    rewrite Hev' in Hev. injection Hev as _ Htr.
    rewrite Hr, request_token_eq. cbv zeta. cbn [client log advance ticks].
    rewrite Htr, Hok. cbn [fst snd client token refreshToken tokenExpiration
                           granted ticks].
    repeat split. eauto.
Qed.

Lemma getToken_grant_is_cached_witness :
  token (client (snd (getToken calm_env (holding "old" 1000)))) = Some "fresh" /\
  tokenExpiration (client (snd (getToken calm_env (holding "old" 1000))))
  = Some 3605000.
Proof.
  destruct (getToken_grant_is_cached calm_env (holding "old" 1000)
              (token_request calm_env (client (holding "old" 1000))
                 (password_grant (client (holding "old" 1000))))
              sample_grant)
    as (_ & Htok & _ & k & Hk & Hexp); [vm_compute; reflexivity | reflexivity |].
  split; [exact Htok|].
  rewrite Hexp. reflexivity.
Defined.

Lemma getToken_refused_keeps_cache_witness :
  fst (getToken denying_env (holding "old" 1000))
  = Throw (Error "Could not retrieve token. Error Reponse: Bad credentials") /\
  client (snd (getToken denying_env (holding "old" 1000)))
  = client (holding "old" 1000).
Proof.
  refine (proj1 (getToken_refused_keeps_cache denying_env (holding "old" 1000))
            (token_request denying_env (client (holding "old" 1000))
               (password_grant (client (holding "old" 1000))))
            (mkTokenResponse false "Bad credentials" "" "" 0) _ _);
    [vm_compute; reflexivity | reflexivity].
Defined.

(** ** The credentials are never changed *)

Lemma same_credentials_refl (c : Client) : same_credentials c c.
Proof. by repeat split. Qed.

Lemma same_credentials_trans (a b c : Client) :
  same_credentials a b -> same_credentials b c -> same_credentials a c.
Proof.
  unfold same_credentials. intros (?&?&?&?&?&?) (?&?&?&?&?&?).
  repeat split; congruence.
Qed.

Lemma Keeps_same {A} (m : M A) :
  (forall e s, client (snd (m e s)) = client s) -> Keeps m.
Proof. intros H e s. rewrite H. apply same_credentials_refl. Qed.

Lemma Keeps_bind {A B} (m : M A) (k : A -> M B) :
  Keeps m -> (forall a, Keeps (k a)) -> Keeps (bind m k).
Proof.
  intros Hm Hk e s. unfold bind. specialize (Hm e s).
  destruct (m e s) as [[a|x] s1]; cbn [snd] in *; [|exact Hm].
  eapply same_credentials_trans; [exact Hm | apply Hk].
Qed.

Lemma Keeps_request_token (p : Obj) : Keeps (request_token p).
Proof.
  intros e s. rewrite request_token_eq. cbv zeta.
  destruct (t_ok _); by repeat split.
Qed.

Lemma Keeps_getToken : Keeps getToken.
Proof.
  intros e s.
  destruct (getToken_cases e s) as [(tok & _ & ->) | (p & k & _ & ->)].
  - apply same_credentials_refl.
  - apply (Keeps_request_token p e (advance k s)).
Qed.

Create HintDb keeps.
#[local] Hint Resolve Keeps_getToken : keeps.

Ltac keeps_step :=
  first
    [ solve [auto with keeps]
    | apply Keeps_bind; [|intros ?]
    | solve [apply Keeps_same; intros; reflexivity]
    | match goal with
      | |- Keeps (if ?b then _ else _) => destruct b
      | |- Keeps (match ?x with _ => _ end) => destruct x
      end ].
Ltac keeps := cbv zeta; repeat keeps_step.

Lemma Keeps_request (method : Method) (path : string) (opts : option loc) :
  Keeps (__request method path opts).
Proof. unfold __request, buildHeaders, default_opts. keeps. Qed.
#[local] Hint Resolve Keeps_request : keeps.

Lemma Keeps_get (path : string) (opts : option loc) : Keeps (get path opts).
Proof. unfold get, default_opts. keeps. Qed.

Lemma Keeps_post (path : string) (opts : option loc) : Keeps (post path opts).
Proof. unfold post, default_opts. keeps. Qed.

Lemma Keeps_del (path : string) : Keeps (del path).
Proof. unfold del. keeps. Qed.
#[local] Hint Resolve Keeps_get Keeps_post Keeps_del : keeps.

Lemma Keeps_poll (type sessionId : string) (n : nat) (res : option Response) :
  Keeps (poll type sessionId n res).
Proof.
  revert res. induction n as [|n IH]; intros res; cbn [poll]; [keeps|].
  unfold sleep. keeps.
Qed.
#[local] Hint Resolve Keeps_poll : keeps.

(** X9. No method changes what the constructor set: after any call, whatever
    the servers answer and whether it returns or throws, the client has the
    version, base URL, API URL, user name, password and user agent it had
    before. *)
Theorem credentials_never_change :
  Keeps getToken /\
  (forall method path opts, Keeps (__request method path opts)) /\
  (forall path opts, Keeps (get path opts)) /\
  (forall path opts, Keeps (post path opts)) /\
  (forall path, Keeps (del path)) /\
  (forall limit, Keeps (getDevices limit)) /\
  (forall name, Keeps (getDevicesByName name)) /\
  (forall label, Keeps (getDevicesWithLabel label)) /\
  (forall name, Keeps (getLabelGroup name)) /\
  (forall name group, Keeps (getLabelInGroup name group)) /\
  (forall limit, Keeps (getProjects limit)) /\
  (forall name, Keeps (getProject name)) /\
  (forall type sessionId, Keeps (getProxy type sessionId)) /\
  (forall deviceId, Keeps (startDeviceSession deviceId)) /\
  (forall sessionId, Keeps (stopDeviceSession sessionId)).
Proof.
  assert (Hdevices : forall limit, Keeps (getDevices limit)).
  { intros limit. unfold getDevices, body_data. keeps. }
  repeat apply conj; auto with keeps; intros.
  - unfold getDevicesByName. keeps.
  - unfold getDevicesWithLabel, body_data. keeps.
  - unfold getLabelGroup, find_displayName, body_data. keeps.
  - unfold getLabelInGroup, find_displayName, body_data. keeps.
  - unfold getProjects, body_data. keeps.
  - unfold getProject, body_data. keeps.
  - unfold getProxy, body_length_truthy, body_first. keeps.
  - unfold startDeviceSession. keeps.
  - unfold stopDeviceSession. keeps.
Qed.

(** ** Edge cases of the cache *)

(** The client after a grant. *)
Lemma getToken_grant_state (e : Env) (s : State) (rq : Request)
    (tr : TokenResponse) :
  events_of getToken e s = [EvToken rq tr] -> t_ok tr = true ->
  fst (getToken e s) = Ret (access_token tr) /\
  exists k, ticks (snd (getToken e s)) = S k /\
            client (snd (getToken e s)) = granted (client s) tr (clock e k).
Proof.
  intros Hev Hok.
  destruct (getToken_cases e s) as [(tok & Htok & Hc) | (p & k & _ & Hr)].
  - exfalso.
    assert (Hnone : events_of getToken e s = []).
    { apply events_of_app. rewrite Hc. simpl. by rewrite app_nil_r. }
    rewrite Hnone in Hev. discriminate.
  - assert (Hev' : events_of getToken e s
                   = [EvToken (token_request e (client s) p)
                              (auth_server e (log s) (token_request e (client s) p))]).
    { rewrite (events_of_moved e _ _ s (advance k s) Hr eq_refl).
      exact (request_token_events e p (advance k s)). }
    rewrite Hev' in Hev. injection Hev as _ Htr.
    rewrite Hr, request_token_eq. cbv zeta. cbn [client log advance ticks].
    rewrite Htr, Hok. cbn [fst snd client ticks]. eauto.
Qed.

(** X10. An empty access token is never reused: when a call of [getToken]
    has returned the empty string, the next call sends a password grant
    again, whatever the expiration the server gave. *)
Theorem empty_token_is_not_cached (e : Env) (s : State) :
  fst (getToken e s) = Ret "" ->
  let s1 := snd (getToken e s) in
  let rq := token_request e (client s1)
              {[ "client_id" := VStr "testdroid-cloud-api";
                 "grant_type" := VStr "password";
                 "username" := VStr (username (client s1));
                 "password" := VStr (password (client s1)) ]} in
  events_of getToken e s1 = [EvToken rq (auth_server e (log s1) rq)].
Proof.
  intros Hret. cbv zeta.
  pose proof (getToken_returns_held e s "" Hret) as Hheld.
  destruct (getToken_password e (snd (getToken e s))) as [k Hk].
  { left. by rewrite Hheld. }
  rewrite (events_of_moved e _ _ _ (advance k (snd (getToken e s))) Hk eq_refl).
  exact (request_token_events e _ (advance k (snd (getToken e s)))).
Qed.

Lemma empty_token_is_not_cached_witness :
  length (events_of (getToken >> getToken) empty_grant_env (initial sample_client))
  = 2%nat.
Proof.
  rewrite (getToken_twice_events empty_grant_env (initial sample_client) "" eq_refl).
  rewrite (empty_token_is_not_cached empty_grant_env (initial sample_client) eq_refl).
  reflexivity.
Defined.

(** X11. A held token whose expiration has no time value is refreshed at
    every call: both comparisons with the clock are false, so [getToken]
    sends a refresh-token grant, never a password grant, and never answers
    from the cache.  That is the state a grant leaves when the clock reading
    plus the lifetime falls outside the range of Date (8.64e15 ms). *)
Theorem invalid_expiration_always_refreshes (e : Env) (s : State) :
  (truthy (token (client s)) = true -> tokenExpiration (client s) = None ->
   events_of getToken e s
   = [EvToken (token_request e (client s) (refresh_grant (client s)))
              (auth_server e (log s)
                 (token_request e (client s) (refresh_grant (client s))))]) /\
  (forall rq tr,
     events_of getToken e s = [EvToken rq tr] -> t_ok tr = true ->
     access_token tr <> "" ->
     (forall k, 8640000000000000 < Z.abs (clock e k + expires_in tr * 1000)) ->
     let s1 := snd (getToken e s) in
     exists ev, events_of getToken e s1 = [ev] /\
                grant_type ev = Some (VStr "refresh_token")).
Proof.
  assert (Hgen : forall s0, truthy (token (client s0)) = true ->
                            tokenExpiration (client s0) = None ->
                            getToken e s0
                            = request_token (refresh_grant (client s0)) e (advance 2 s0)).
  { intros s0 Ht Hx. rewrite getToken_eq, choose_grant_eq. cbv zeta.
    destruct (token (client s0)) as [tok|] eqn:Etok; [|discriminate].
    by rewrite Ht, Hx. }
  split.
  - intros Ht Hx.
    rewrite (events_of_moved e _ _ s (advance 2 s) (Hgen s Ht Hx) eq_refl).
    exact (request_token_events e _ (advance 2 s)).
  - intros rq tr Hev Hok Hne Hrange. cbv zeta.
    destruct (getToken_grant_state e s rq tr Hev Hok) as (_ & k & _ & Hclient).
    assert (Ht : truthy (token (client (snd (getToken e s)))) = true).
    { rewrite Hclient. simpl. by destruct (String.eqb_spec (access_token tr) ""). }
    assert (Hx : tokenExpiration (client (snd (getToken e s))) = None).
    { rewrite Hclient. simpl. unfold new_Date.
      destruct (Z.leb_spec (Z.abs (clock e k + expires_in tr * 1000))
                           8640000000000000); [|done].
      specialize (Hrange k). lia. }
    eexists. split.
    + rewrite (events_of_moved e _ _ _ (advance 2 (snd (getToken e s)))
                 (Hgen (snd (getToken e s)) Ht Hx) eq_refl).
      exact (request_token_events e _ (advance 2 (snd (getToken e s)))).
    + reflexivity.
Qed.

Lemma invalid_expiration_always_refreshes_witness :
  exists ev,
    events_of getToken eternal_grant_env
              (snd (getToken eternal_grant_env (initial sample_client))) = [ev] /\
    grant_type ev = Some (VStr "refresh_token").
Proof.
  refine (proj2 (invalid_expiration_always_refreshes eternal_grant_env
                   (initial sample_client))
            (token_request eternal_grant_env (client (initial sample_client))
               (password_grant (client (initial sample_client))))
            (mkTokenResponse true "" "fresh" "renew" 9000000000000000) _ _ _ _);
    [vm_compute; reflexivity | reflexivity | discriminate |].
  intros k. simpl. lia.
Defined.

(** ** What goes over the wire *)

(** X12. The first call on a new client logs in before anything else: it
    posts a password grant with the constructor's user name and password to
    <base URL>/oauth/token, under the user agent testdroid-client/<version>.
    If the grant succeeds, the API request follows, under the URL prefix
    api/v2/ and bearing the token just granted; if it fails, the call throws
    and nothing is sent to the API. *)
Theorem first_call_logs_in (e : Env) (ver url user pass path : string) :
  let s := initial (constructor ver url user pass) in
  let login :=
    mkRequest POST (urljoin e url "oauth/token")
      {[ "User-Agent" := "testdroid-client/" +:+ ver;
         "Content-Type" := "application/x-www-form-urlencoded";
         "Accept" := "application/json" ]}
      None
      (Some {[ "client_id" := VStr "testdroid-cloud-api";
               "grant_type" := VStr "password";
               "username" := VStr user;
               "password" := VStr pass ]}) in
  let tr := auth_server e [] login in
  let rq :=
    mkRequest GET (urljoin e (url +:+ "api/v2/") path)
      {[ "Accept" := "application/json";
         "Authorization" := "Bearer " +:+ access_token tr ]}
      (Some ∅) None in
  let res := api_server e [EvToken login tr] rq in
  if t_ok tr then
    events_of (get path None) e s = [EvToken login tr; EvApi rq res] /\
    fst (get path None e s)
    = (if ok res then Ret res else Throw (Error (error_to_string res)))
  else
    events_of (get path None) e s = [EvToken login tr] /\
    fst (get path None e s)
    = Throw (Error ("Could not retrieve token. Error Reponse: "
                    +:+ error_description tr)).
Proof.
  cbv zeta. set (s := initial (constructor ver url user pass)).
  pose proof (get_run e path None s) as Hrun. cbv zeta in Hrun.
  assert (Hg : getToken e s = request_token (password_grant (client s)) e s).
  { rewrite getToken_eq, choose_grant_eq. reflexivity. }
  rewrite Hg, request_token_eq in Hrun. cbv zeta in Hrun.
  change (token_request e (client s) (password_grant (client s)))
    with (mkRequest POST (urljoin e url "oauth/token")
            {[ "User-Agent" := "testdroid-client/" +:+ ver;
               "Content-Type" := "application/x-www-form-urlencoded";
               "Accept" := "application/json" ]}
            None
            (Some {[ "client_id" := VStr "testdroid-cloud-api";
                     "grant_type" := VStr "password";
                     "username" := VStr user;
                     "password" := VStr pass ]})) in Hrun.
  change (log s) with (@nil Event) in Hrun.
  destruct (t_ok _).
  - destruct Hrun as (Ho & Hl & _). cbn [log app] in Hl, Ho.
    unfold request_sent, caller_headers, caller_payload in Hl, Ho.
    rewrite with_auth_empty in Hl, Ho. cbn [api_request] in Hl, Ho.
    split; [|exact Ho].
    unfold events_of. by rewrite Hl.
  - destruct Hrun as (Ho & Hl & _). cbn [log app] in Hl.
    split; [|exact Ho].
    unfold events_of. by rewrite Hl.
Qed.

(** X13. [__request] returns whatever response it receives, success or not,
    and throws only when the token cannot be obtained, in which case nothing
    is sent to the API.  The one request it sends goes to the API URL joined
    with the path and carries the caller's payload ([{}] by default) as the
    query for GET and as the body for every other method. *)
Theorem request_is_raw (e : Env) (s : State) (method : Method) (path : string)
    (opts : option loc) :
  match getToken e s with
  | (Ret tok, s1) =>
      exists rq,
        api_requests (events_of (__request method path opts) e s) = [rq] /\
        fst (__request method path opts e s) = Ret (api_server e (log s1) rq) /\
        rq_method rq = method /\
        rq_url rq = urljoin e (apiUrl (client s)) path /\
        match method with
        | GET => rq_query rq = Some (caller_payload opts s) /\ rq_send rq = None
        | _ => rq_query rq = None /\ rq_send rq = Some (caller_payload opts s)
        end
  | (Throw x, _) =>
      api_requests (events_of (__request method path opts) e s) = [] /\
      fst (__request method path opts e s) = Throw x /\
      exists tr, t_ok tr = false /\
                 x = Error ("Could not retrieve token. Error Reponse: "
                            +:+ error_description tr)
  end.
Proof.
  pose proof (request_run e method path opts s) as Hrun. cbv zeta in Hrun.
  pose proof (request_events e s method path opts) as Hev.
  pose proof (getToken_no_api e s) as [Hnone _].
  pose proof (getToken_throws e s) as Hthrows.
  rewrite Hev, api_requests_app, Hnone.
  destruct (getToken e s) as [[tok|x] s1]; cbn [fst] in *.
  - destruct Hrun as (Ho & _). eexists. split; [reflexivity|].
    split; [exact Ho|]. unfold request_sent. by destruct method.
  - destruct Hrun as (Ho & _). split; [reflexivity|]. split; [exact Ho|].
    destruct (Hthrows x eq_refl) as (tr & -> & Htr). eauto.
Qed.

(** X14. [get] with the caller's own header object fills that object in
    place: after the call the object the caller passed in [opts.headers]
    holds the bearer token under [Authorization], and [Accept] if it had
    none; the [opts] object and every other header object are as they were.
    When the token cannot be obtained nothing in the store has changed. *)
Theorem get_fills_caller_headers (e : Env) (s : State) (path : string)
    (o h : loc) (ob : Opts) :
  optss s !! o = Some ob -> o_headers ob = Some h ->
  let s' := snd (get path (Some o) e s) in
  optss s' = optss s /\
  (forall l, l <> h -> hdrs s' !! l = hdrs s !! l) /\
  match fst (getToken e s) with
  | Ret tok =>
      exists filled,
        hdrs s' !! h = Some filled /\
        filled !! "Authorization" = Some ("Bearer " +:+ tok) /\
        filled !! "Accept"
        = Some (default "application/json" (read_headers_at (hdrs s) h !! "Accept")) /\
        (forall k, k <> "Authorization" -> k <> "Accept" ->
                   filled !! k = read_headers_at (hdrs s) h !! k)
  | Throw _ => hdrs s' = hdrs s
  end.
Proof.
  intros Ho Hh. cbv zeta. rewrite get_state, request_eq.
  cbn [opts_target]. unfold read_opts_at. rewrite Ho. cbn [from_option id].
  rewrite Hh. cbn [headers_target].
  destruct (getToken e s) as [[tok|x] s1]; cbn [fst snd hdrs optss reheap].
  - split; [reflexivity|]. split.
    + intros l Hl. by rewrite lookup_insert_ne.
    + eexists. split; [apply lookup_insert_eq|].
      split; [apply with_auth_Authorization|].
      split; [apply with_auth_Accept | apply with_auth_other].
  - split; [reflexivity|]. split; [reflexivity|]. reflexivity.
Qed.

Lemma get_fills_caller_headers_witness :
  exists filled,
    hdrs (snd (get "devices" (Some 0%nat) calm_env caller_store)) !! 0%nat
    = Some filled /\
    filled !! "Authorization" = Some "Bearer fresh" /\
    filled !! "x-user" = Some "foo".
Proof.
  pose proof (get_fills_caller_headers calm_env caller_store "devices" 0%nat 0%nat
                (mkOpts (Some {[ "limit" := VNum 1 ]}) (Some 0%nat))
                eq_refl eq_refl) as (_ & _ & H).
  destruct (fst (getToken calm_env caller_store)) as [tok|x] eqn:E;
    [|vm_compute in E; discriminate E].
  vm_compute in E. injection E as <-.
  destruct H as (filled & Hf & Hauth & _ & Hother).
  exists filled. split; [exact Hf|]. split; [exact Hauth|].
  rewrite Hother; [reflexivity | discriminate | discriminate].
Defined.

(** ** More on the polling loop *)

Lemma slept_polling_view (evs : list Event) :
  slept evs = view_slept (polling_view evs).
Proof.
  induction evs as [|ev evs IH]; [reflexivity|].
  destruct ev; cbn; fold (slept evs); fold (view_slept (polling_view evs));
    by rewrite IH.
Qed.

Lemma view_slept_app (a b : list (Response + Z)) :
  view_slept (a ++ b) = view_slept a + view_slept b.
Proof.
  induction a as [|x a IH]; [reflexivity|].
  destruct x; cbn; fold (view_slept (a ++ b)); fold (view_slept a);
    rewrite IH; lia.
Qed.

Lemma view_slept_rounds (rs : list Response) :
  view_slept (rounds rs) = 5000 * Z.of_nat (length rs).
Proof.
  induction rs as [|r rs IH]; [reflexivity|].
  cbn. fold (rounds rs). fold (view_slept (rounds rs)). rewrite IH. lia.
Qed.

Lemma sleeps_of_view (evs : list Event) :
  Forall (fun x => match x with inr ms => ms = 5000 | inl _ => True end)
         (polling_view evs) ->
  Forall (fun ev => match ev with EvSleep ms => ms = 5000 | _ => True end) evs.
Proof.
  induction evs as [|ev evs IH]; intros H; [constructor|].
  destruct ev; cbn in H.
  - constructor; [done | by apply IH].
  - inversion H; subst. constructor; [done | by apply IH].
  - inversion H; subst. constructor; [done | by apply IH].
Qed.

Lemma rounds_sleeps (rs : list Response) :
  Forall (fun x => match x with inr ms => ms = 5000 | inl _ => True end)
         (rounds rs).
Proof. induction rs as [|r rs IH]; cbn; repeat constructor. exact IH. Qed.

(** X15. [getProxy] sleeps 5000 ms at a time and at most 150 seconds in all:
    exactly 150 seconds before it throws the timeout error, and 5 seconds
    for each query before the one that found the proxy when it returns. *)
Theorem getProxy_sleep_budget (e : Env) (s : State) (type sessionId : string) :
  let evs := events_of (getProxy type sessionId) e s in
  let out := fst (getProxy type sessionId e s) in
  Forall (fun ev => match ev with EvSleep ms => ms = 5000 | _ => True end) evs /\
  0 <= slept evs <= 150000 /\
  (out = Throw (proxy_timeout type sessionId) -> slept evs = 150000) /\
  (forall p, out = Ret p ->
             slept evs = 5000 * (Z.of_nat (length (api_responses evs)) - 1)).
Proof.
  cbv zeta. rewrite slept_polling_view, api_responses_view.
  split.
  { apply sleeps_of_view.
    destruct (getProxy_run e s type sessionId);
      rewrite ?Forall_app; repeat split; try apply rounds_sleeps;
      by repeat constructor. }
  destruct (getProxy_run e s type sessionId)
    as [rs res p l Hrs Hlen Hok Hbody | rs r Hrs Hlen Hlast Hbody
       | rs r Hrs Hlen Hlast Hbody | rs res Hrs Hlen Hok | rs tr Hrs Hlen Htr];
    rewrite ?view_slept_app, ?attempts_app, ?attempts_rounds, view_slept_rounds;
    cbn [view_slept foldr attempts omap]; unfold maxRetries in Hlen.
  - split; [lia|]. split; [discriminate|].
    intros _ _. rewrite length_app. simpl. lia.
  - split; [lia|]. split; [intros _; lia | discriminate].
  - split; [lia|]. split; [discriminate | discriminate].
  - split; [lia|]. split; [|discriminate].
    intros H. destruct (timeout_not_refusal type sessionId res). congruence.
  - split; [lia|]. split; [|discriminate].
    intros H. destruct (timeout_not_auth type sessionId tr). congruence.
Qed.

Lemma getProxy_sleep_budget_witness :
  slept (events_of (getProxy "adb" "12") empty_env (initial sample_client)) = 150000 /\
  slept (events_of (getProxy "adb" "12") third_time_env (initial sample_client))
  = 10000.
Proof.
  split.
  - apply (proj1 (proj2 (proj2 (getProxy_sleep_budget empty_env (initial sample_client)
                                  "adb" "12")))).
    vm_compute. reflexivity.
  - rewrite (proj2 (proj2 (proj2 (getProxy_sleep_budget third_time_env
                                    (initial sample_client) "adb" "12")))
               (Some sample_proxy)); [|vm_compute; reflexivity].
    vm_compute. reflexivity.
Defined.

(** One query: what [get] with no options sends, and that the API URL is
    kept for the next one. *)
Lemma get_none_requests (e : Env) (s : State) (type sessionId : string) :
  exists evs,
    log (snd (get (proxy_path e type sessionId) None e s)) = (log s ++ evs)%list /\
    Forall (proxy_query e (apiUrl (client s)) type sessionId) (api_requests evs) /\
    apiUrl (client (snd (get (proxy_path e type sessionId) None e s)))
    = apiUrl (client s).
Proof.
  pose proof (get_run e (proxy_path e type sessionId) None s) as Hrun.
  cbv zeta in Hrun.
  destruct (getToken_log e s) as (evs & Hlog & Hshape).
  pose proof (Keeps_getToken e s) as (_ & _ & Hapi & _).
  assert (Hnone : api_requests evs = []).
  { destruct Hshape as [-> | (rq & rs & ->)]; reflexivity. }
  destruct (getToken e s) as [[tok|x] s1]; cbn [fst snd] in *.
  - destruct Hrun as (_ & Hl & Hc & _). eexists. split.
    + rewrite Hl, Hlog, <- app_assoc. reflexivity.
    + split; [|by rewrite Hc].
      rewrite api_requests_app, Hnone. cbn.
      constructor; [|constructor].
      unfold request_sent, caller_headers, caller_payload.
      rewrite with_auth_empty. repeat split. eauto.
  - destruct Hrun as (_ & Hl & Hc & _). exists evs. split; [by rewrite Hl|].
    split; [by rewrite Hnone | by rewrite Hc].
Qed.

Lemma poll_requests (e : Env) (type sessionId : string) (n : nat) :
  forall (res0 : option Response) (s : State),
  exists evs,
    log (snd (poll type sessionId n res0 e s)) = (log s ++ evs)%list /\
    Forall (proxy_query e (apiUrl (client s)) type sessionId) (api_requests evs).
Proof.
  induction n as [|n IH]; intros res0 s.
  - exists []. split; [simpl; by rewrite app_nil_r | constructor].
  - rewrite poll_S.
    destruct (get_none_requests e s type sessionId) as (evs1 & Hlog1 & Hall1 & Hapi).
    destruct (get _ None e s) as [[r|x] s1]; cbn [fst snd] in *;
      [|by exists evs1].
    destruct (ok r && body_has_length (body r)); [by exists evs1|].
    match goal with
    | |- context [poll type sessionId n (Some r) e ?s2] =>
        destruct (IH (Some r) s2) as (evs2 & Hlog2 & Hall2)
    end.
    cbn [log client] in Hlog2, Hall2. rewrite Hapi in Hall2.
    exists (evs1 ++ EvSleep 5000 :: evs2)%list. split.
    + rewrite Hlog2, Hlog1, <- !app_assoc. reflexivity.
    + rewrite api_requests_app. apply Forall_app. split; [exact Hall1|].
      exact Hall2.
Qed.

(** X16. Every query of [getProxy] is the same GET: its URL is the API URL
    joined with proxy-plugin/proxies?where=<the encoded type and session
    id>, its query object is empty and it carries only the Accept and
    Authorization headers.  The payload object the function builds from
    [type] and [sessionId] before the loop is never sent. *)
Theorem getProxy_queries (e : Env) (s : State) (type sessionId : string) :
  Forall (fun rq =>
            rq_method rq = GET /\
            rq_url rq
            = urljoin e (apiUrl (client s))
                (util_format e "proxy-plugin/proxies?where=%s"
                   [encodeURIComponent e
                      (util_format e queryFormat [type; sessionId])]) /\
            rq_query rq = Some ∅ /\ rq_send rq = None /\
            exists tok, rq_headers rq
                        = {[ "Accept" := "application/json";
                             "Authorization" := "Bearer " +:+ tok ]})
         (api_requests (events_of (getProxy type sessionId) e s)).
Proof.
  destruct (poll_requests e type sessionId maxRetries None s) as (evs & Hlog & Hall).
  assert (Hev : events_of (getProxy type sessionId) e s = evs).
  { apply events_of_app. rewrite getProxy_eq, <- Hlog.
    by destruct (poll _ _ _ _ _ _) as [[[res|]|x] s1]. }
  rewrite Hev. exact Hall.
Qed.

(** The request [post] sends: the caller's payload under the three headers. *)
Lemma post_request (e : Env) (s : State) (path : string) (opts : option loc) :
  api_requests (events_of (post path opts) e s)
  = match fst (getToken e s) with
    | Ret tok =>
        [mkRequest POST (urljoin e (apiUrl (client s)) path)
           {[ "Accept" := "application/json";
              "Authorization" := "Bearer " +:+ tok;
              "Content-Type" := "application/x-www-form-urlencoded" ]}
           None (Some (caller_payload opts s))]
    | Throw _ => []
    end.
Proof.
  rewrite post_events, request_events, api_requests_app.
  destruct (getToken_no_api e (snd (post_prepared opts s))) as [-> _].
  pose proof (post_prepared_token e opts s) as Htok.
  destruct (getToken e (snd (post_prepared opts s))) as [[tok|x] s1];
    cbn [fst] in Htok; rewrite <- Htok; [|reflexivity].
  cbn. f_equal. unfold request_sent, caller_headers, caller_payload,
    post_prepared, read_opts_at, read_headers_at.
  assert (Hb : bool_decide (is_Some (@None string)) = false).
  { apply bool_decide_eq_false. by intros [? ?]. }
  destruct opts as [o|]; cbn [opts_target fst snd optss hdrs reheap client].
  - rewrite !lookup_insert_eq. cbn [from_option id o_headers o_payload payload_of].
    rewrite lookup_insert_eq. cbn [from_option id]. unfold with_auth.
    rewrite lookup_singleton_ne by done. by rewrite Hb.
  - rewrite !lookup_insert_eq. cbn [from_option id o_headers o_payload payload_of].
    rewrite lookup_insert_eq. cbn [from_option id]. unfold with_auth.
    rewrite lookup_singleton_ne by done. by rewrite Hb.
Qed.

(** X17. [startDeviceSession] posts [deviceModelId] = the device id to
    me/device-sessions, and [stopDeviceSession] posts an empty body to
    me/device-sessions/<session id>/release; both as form-urlencoded, with
    the bearer token, and neither sends anything when the token cannot be
    obtained. *)
Theorem session_requests (e : Env) (s : State) (deviceId sessionId : string) :
  match fst (getToken e s) with
  | Ret tok =>
      let headers := {[ "Accept" := "application/json";
                        "Authorization" := "Bearer " +:+ tok;
                        "Content-Type" := "application/x-www-form-urlencoded" ]} in
      api_requests (events_of (startDeviceSession deviceId) e s)
      = [mkRequest POST (urljoin e (apiUrl (client s)) "me/device-sessions")
           headers None (Some {[ "deviceModelId" := VStr deviceId ]})] /\
      api_requests (events_of (stopDeviceSession sessionId) e s)
      = [mkRequest POST
           (urljoin e (apiUrl (client s))
              ("me/device-sessions/" +:+ sessionId +:+ "/release"))
           headers None (Some ∅)]
  | Throw _ =>
      api_requests (events_of (startDeviceSession deviceId) e s) = [] /\
      api_requests (events_of (stopDeviceSession sessionId) e s) = []
  end.
Proof.
  pose proof (startDeviceSession_eq e s deviceId) as Hstart. cbv zeta in Hstart.
  set (l := fresh (dom (optss s))) in *.
  set (s0 := reheap _ _ s) in *.
  assert (Hev1 : events_of (startDeviceSession deviceId) e s
                 = events_of (post "me/device-sessions" (Some l)) e s0).
  { unfold events_of. rewrite Hstart.
    by destruct (post "me/device-sessions" (Some l) e s0) as [[res|y] s2]. }
  assert (Hev2 : events_of (stopDeviceSession sessionId) e s
                 = events_of (post ("me/device-sessions/" +:+ sessionId
                                    +:+ "/release") None) e s).
  { unfold events_of. rewrite stopDeviceSession_eq.
    by destruct (post _ None e s) as [[res|y] s2]. }
  assert (H1 : api_requests (events_of (post "me/device-sessions" (Some l)) e s0)
               = match fst (getToken e s) with
                 | Ret tok =>
                     [mkRequest POST (urljoin e (apiUrl (client s)) "me/device-sessions")
                        {[ "Accept" := "application/json";
                           "Authorization" := "Bearer " +:+ tok;
                           "Content-Type" := "application/x-www-form-urlencoded" ]}
                        None (Some {[ "deviceModelId" := VStr deviceId ]})]
                 | Throw _ => []
                 end).
  { rewrite (post_request e s0 "me/device-sessions" (Some l)).
    unfold s0 at 1. rewrite getToken_reheap. cbn [fst].
    unfold caller_payload, read_opts_at, s0. cbn [optss reheap client].
    by rewrite lookup_insert_eq. }
  assert (H2 : api_requests (events_of (post ("me/device-sessions/" +:+ sessionId
                                               +:+ "/release") None) e s)
               = match fst (getToken e s) with
                 | Ret tok =>
                     [mkRequest POST
                        (urljoin e (apiUrl (client s))
                           ("me/device-sessions/" +:+ sessionId +:+ "/release"))
                        {[ "Accept" := "application/json";
                           "Authorization" := "Bearer " +:+ tok;
                           "Content-Type" := "application/x-www-form-urlencoded" ]}
                        None (Some ∅)]
                 | Throw _ => []
                 end).
  { exact (post_request e s _ None). }
  rewrite Hev1, Hev2, H1, H2.
  by destruct (fst (getToken e s)).
Qed.

(** ** The resource methods on the sample worlds *)

Lemma getDevicesWithLabel_by_id_witness :
  fst (getDevicesWithLabel (Some (device 7 "phones")) devices_env
                           (initial sample_client))
  = Ret (Some sample_devices) /\
  fst (getDevicesWithLabel (Some (device 7 "phones")) refusing_env
                           (initial sample_client))
  = Throw (Error "Error: Not Found").
Proof.
  split.
  - pose proof (getDevicesWithLabel_by_id devices_env (initial sample_client)
                  (device 7 "phones")) as [_ H].
    destruct (getToken devices_env (initial sample_client)) as [[tok|x] s1] eqn:E;
      [|vm_compute in E; discriminate E].
    destruct H as (_ & _ & Hok). apply Hok; reflexivity.
  - pose proof (getDevicesWithLabel_by_id refusing_env (initial sample_client)
                  (device 7 "phones")) as [_ H].
    destruct (getToken refusing_env (initial sample_client)) as [[tok|x] s1] eqn:E;
      [|vm_compute in E; discriminate E].
    destruct H as (_ & Hfail & _). apply Hfail. reflexivity.
Defined.

Lemma getLabelGroup_first_exact_witness :
  exists found,
    fst (getLabelGroup (Some "Flame") devices_env (initial sample_client))
    = Ret found /\
    first_match (fun g => bool_decide (g !! "displayName" = Some (VStr "Flame")))
                sample_devices found.
Proof.
  pose proof (getLabelGroup_first_exact devices_env (initial sample_client) "Flame")
    as (_ & _ & H).
  specialize (H ltac:(discriminate)).
  destruct (getToken devices_env (initial sample_client)) as [[tok|x] s1] eqn:E;
    [|vm_compute in E; discriminate E].
  destruct H as (_ & _ & Hok). apply Hok; reflexivity.
Defined.


Lemma getProjects_wraps_each_witness :
  exists projects,
    fst (getProjects (VStr "all") projects_env (initial sample_client))
    = Ret projects /\
    length projects = 3%nat /\
    projects !! 1%nat = Some (NewProject (project 2 "Foo")).
Proof.
  pose proof (getProjects_wraps_each projects_env (initial sample_client)
                (VStr "all")) as H.
  destruct (getToken projects_env (initial sample_client)) as [[tok|x] s1] eqn:E;
    [|vm_compute in E; discriminate E].
  destruct H as (_ & _ & Hok).
  destruct (Hok sample_projects eq_refl eq_refl) as (projects & Hret & Hlen & Hnth).
  exists projects. split; [exact Hret|]. split; [exact Hlen|].
  apply Hnth. reflexivity.
Defined.

Lemma getProject_first_exact_witness :
  exists found,
    fst (getProject (Some "Foo") projects_env (initial sample_client))
    = Ret (NewProject <$> found) /\
    first_match (fun p => bool_decide (p !! "name" = Some (VStr "Foo")))
                sample_projects found.
Proof.
  pose proof (getProject_first_exact projects_env (initial sample_client) "Foo")
    as (_ & _ & H).
  specialize (H ltac:(discriminate)).
  destruct (getToken projects_env (initial sample_client)) as [[tok|x] s1] eqn:E;
    [|vm_compute in E; discriminate E].
  destruct H as (_ & _ & Hok). apply Hok; reflexivity.
Defined.

Lemma contextual_errors_unreachable_witness :
  fst (getProjects (VNum 3) refusing_env (initial sample_client))
  <> Throw (Error "Could not retrieve projects.").
Proof.
  exact (proj1 (proj2 (proj2 (proj2 (contextual_errors_unreachable refusing_env
                                       (initial sample_client))))) (VNum 3)).
Defined.

(** X18. [getDevicesByName] does not turn a malformed answer into an empty
    list: on a success response with no body it throws the TypeError of
    reading [data], on one whose body has no [data] array the TypeError of
    calling [filter], and on a response that is not a success the error of
    [get]; it returns a list only when [data] is an array. *)
Theorem getDevicesByName_malformed (e : Env) (s : State) (X : string) :
  match getToken e s with
  | (Ret tok, s1) =>
      let res := api_server e (log s1)
                   (literal_get e s "devices" tok {[ "limit" := VNum 0 ]}) in
      (ok res = false ->
       fst (getDevicesByName X e s) = Throw (Error (error_to_string res))) /\
      (ok res = true -> body res = BodyNone ->
       fst (getDevicesByName X e s) = Throw (TypeError "data")) /\
      (ok res = true -> (forall d, body res <> BodyPage d) -> body res <> BodyNone ->
       fst (getDevicesByName X e s) = Throw (TypeError "filter")) /\
      (forall found, fst (getDevicesByName X e s) = Ret found ->
       ok res = true /\ exists d, body res = BodyPage d)
  | (Throw x, _) => fst (getDevicesByName X e s) = Throw x
  end.
Proof.
  pose proof (literal_get_method e s "devices" _ _ _ (getDevicesByName_eq e s X)) as H.
  destruct (getToken e s) as [[tok|x] s1]; cbv zeta in *.
  - destruct H as (_ & _ & Hout). rewrite Hout.
    split; [by intros ->|]. split; [by intros -> ->|]. split.
    + intros -> Hpage Hnone. destruct (body _) as [| |d|]; try done.
      by destruct (Hpage d).
    + intros found. destruct (ok _); [|discriminate].
      destruct (body _) as [| |d|]; try discriminate. eauto.
  - by destruct H as (_ & _ & Hout).
Qed.

Lemma getDevicesByName_malformed_witness :
  fst (getDevicesByName "Flame" calm_env (initial sample_client))
  = Throw (TypeError "data") /\
  fst (getDevicesByName "Flame" empty_env (initial sample_client))
  = Throw (TypeError "filter").
Proof.
  split.
  - pose proof (getDevicesByName_malformed calm_env (initial sample_client) "Flame")
      as H.
    destruct (getToken calm_env (initial sample_client)) as [[tok|x] s1] eqn:E;
      [|vm_compute in E; discriminate E].
    destruct H as (_ & Hnone & _). apply Hnone; reflexivity.
  - pose proof (getDevicesByName_malformed empty_env (initial sample_client) "Flame")
      as H.
    destruct (getToken empty_env (initial sample_client)) as [[tok|x] s1] eqn:E;
      [|vm_compute in E; discriminate E].
    destruct H as (_ & _ & Hother & _). apply Hother; [reflexivity | | ]; discriminate.
Defined.
